(** * Auto-blog: a shallow embedding of the WordPress auto poster
    (src/Auto-blog.py) and its ingestion pipeline.

    Python strings are modelled as Rocq [string] (ASCII), Python values
    read from YAML and JSON as [pyval], exceptions as [exn], and the
    stateful handler as a state-and-exception monad over a [world]
    holding the two dedup sets, the file system, the log, and the
    HTTP traffic. Results of external collaborators (PyYAML, the
    markdown renderer, the WordPress server, the OS) are fields of an
    environment record [env], fixed for one event. *)

From Stdlib Require Import ZArith Ascii String List Bool Lia.
From Stdlib Require Import Numbers.DecimalString.
From stdpp Require Import base gmap strings.
Import ListNotations.

Local Open Scope Z_scope.
Local Set Warnings "-register-all".

(* ================================================================= *)
(** ** Python values, exceptions, results *)

(** Values produced by [yaml.safe_load] and [response.json()]. A dict
    is an association list with unique keys, as a Python dict is. *)
Inductive pyval :=
| PNone
| PBool (b : bool)
| PInt (z : Z)
| PStr (s : string)
| PDate (y mo d : Z)                     (* datetime.date *)
| PDateTime (y mo d h mi sec : Z)        (* datetime.datetime *)
| PList (l : list pyval)
| PDict (kv : list (string * pyval)).

(** Python truthiness ([if v:], [not v], [v or {}]). *)
Definition truthy (v : pyval) : bool :=
  match v with
  | PNone => false
  | PBool b => b
  | PInt z => negb (z =? 0)
  | PStr s => negb (String.eqb s "")
  | PDate _ _ _ | PDateTime _ _ _ _ _ _ => true
  | PList l => negb (length l =? 0)%nat
  | PDict kv => negb (length kv =? 0)%nat
  end.

Inductive exn :=
| YAMLError
| ValueError
| AttributeError
| KeyError
| TypeError
| FileNotFoundError
| PermissionError
| OSError
| UnboundLocalError
| UnicodeDecodeError
| RequestTimeout              (* requests.exceptions.Timeout *)
| RequestConnectionError      (* requests.exceptions.ConnectionError *)
| RequestError                (* any other requests.exceptions.RequestException *)
| JSONDecodeError.            (* requests' JSONDecodeError, a RequestException *)

(** [except (OSError, PermissionError, shutil.Error)]: PermissionError,
    FileNotFoundError and shutil.Error are subclasses of OSError. *)
Definition is_oserror (e : exn) : bool :=
  match e with
  | FileNotFoundError | PermissionError | OSError => true
  | _ => false
  end.

(** [except requests.exceptions.RequestException]. *)
Definition is_request_exc (e : exn) : bool :=
  match e with
  | RequestTimeout | RequestConnectionError | RequestError | JSONDecodeError => true
  | _ => false
  end.

Inductive res (A : Type) :=
| Ok (a : A)
| Raise (e : exn).
Arguments Ok {A} a.
Arguments Raise {A} e.

(* ================================================================= *)
(** ** Python [str] operations used by the script *)

Definition nl : ascii := "010"%char.

(** [str.isspace] / regex [\s] on ASCII: \t \n \v \f \r, the
    separators \x1c-\x1f, and the space. *)
Definition is_py_space (c : ascii) : bool :=
  let n := nat_of_ascii c in ((9 <=? n) && (n <=? 13) || (28 <=? n) && (n <=? 32))%nat.

Definition lstrip_l (l : list ascii) : list ascii :=
  let fix go l := match l with
                  | c :: r => if is_py_space c then go r else l
                  | [] => []
                  end in go l.

(** [s.strip()]. *)
Definition py_strip (s : string) : string :=
  string_of_list_ascii (rev (lstrip_l (rev (lstrip_l (list_ascii_of_string s))))).

(** [s.lower()] on ASCII. *)
Definition lower_char (c : ascii) : ascii :=
  let n := nat_of_ascii c in
  if ((65 <=? n) && (n <=? 90))%nat then ascii_of_nat (n + 32) else c.

Definition py_lower (s : string) : string :=
  string_of_list_ascii (map lower_char (list_ascii_of_string s)).

(** [l] with the prefix [p] removed, when [l] starts with [p]. *)
Fixpoint strip_prefix_l (p l : list ascii) : option (list ascii) :=
  match p, l with
  | [], _ => Some l
  | c :: p', d :: l' => if Ascii.eqb c d then strip_prefix_l p' l' else None
  | _ :: _, [] => None
  end.

(** [s.startswith(p)]. *)
Definition py_startswith (s p : string) : bool :=
  match strip_prefix_l (list_ascii_of_string p) (list_ascii_of_string s) with
  | Some _ => true
  | None => false
  end.

(** [s.endswith(p)]. *)
Definition py_endswith (s p : string) : bool :=
  match strip_prefix_l (rev (list_ascii_of_string p)) (rev (list_ascii_of_string s)) with
  | Some _ => true
  | None => false
  end.

(** [s.split('\n')]: always at least one piece. *)
Fixpoint split_nl_l (l : list ascii) : list (list ascii) :=
  match l with
  | [] => [[]]
  | c :: r =>
      if Ascii.eqb c nl then [] :: split_nl_l r
      else match split_nl_l r with
           | x :: xs => (c :: x) :: xs
           | [] => [[c]]
           end
  end.

Definition py_split_nl (s : string) : list string :=
  map string_of_list_ascii (split_nl_l (list_ascii_of_string s)).

(** [s.replace(old, new, 1)] for a non-empty [old]: the first
    occurrence, scanning left to right, is replaced. *)
Fixpoint replace_first_l (old new l : list ascii) : list ascii :=
  match strip_prefix_l old l with
  | Some r => new ++ r
  | None => match l with
            | [] => []
            | c :: l' => c :: replace_first_l old new l'
            end
  end.

Definition py_replace1 (s old new : string) : string :=
  string_of_list_ascii
    (replace_first_l (list_ascii_of_string old) (list_ascii_of_string new)
       (list_ascii_of_string s)).

(** [s[k:]]. *)
Definition py_drop (k : nat) (s : string) : string :=
  string_of_list_ascii (skipn k (list_ascii_of_string s)).

Definition Z_to_string (z : Z) : string := NilEmpty.string_of_int (Z.to_int z).

(** [str(int)] padded on the left with zeros to [w] characters, as the
    [%m %d %H %M %S] directives of [strftime] (w = 2) print a
    non-negative field. *)
Definition zpad (w : nat) (z : Z) : string :=
  let s := Z_to_string z in
  String.append (string_of_list_ascii (repeat "0"%char (w - String.length s)%nat)) s.

Fixpoint first_some {A B : Type} (f : A -> option B) (l : list A) : option B :=
  match l with
  | [] => None
  | x :: r => match f x with Some b => Some b | None => first_some f r end
  end.

Definition lead_ws (l : list ascii) : nat :=
  (length l - length (lstrip_l l))%nat.

(* ================================================================= *)
(** ** [parse_frontmatter] (lines 93-105)

    [re.match(r'^---\s*\n( .*? )\n---\s*\n( .* )$', content, re.DOTALL)]
    (blanks inside the groups added for this comment).
    The matcher below follows the backtracking order of Python's
    engine: a greedy [\s*] tries its longest run of whitespace first,
    the lazy [( .*? )] its shortest capture first; [( .* )$] under DOTALL
    always takes the whole remainder. *)

(** Remainders after a greedy [\s*]: longest run first. *)
Definition ws_star (l : list ascii) : list (list ascii) :=
  let n := lead_ws l in map (fun j => skipn (n - j) l) (seq 0 (S n)).

(** Splits tried by a lazy [( .*? )]: shortest capture first. *)
Definition lazy_splits (l : list ascii) : list (list ascii * list ascii) :=
  map (fun i => (firstn i l, skipn i l)) (seq 0 (S (length l))).

Definition dashes : list ascii := ["-"; "-"; "-"]%char.

Definition fm_match_l (l : list ascii) : option (list ascii * list ascii) :=
  match strip_prefix_l dashes l with
  | None => None
  | Some l1 =>
      first_some (fun r1 =>
        match strip_prefix_l [nl] r1 with
        | None => None
        | Some r2 =>
            first_some (fun '(g1, r3) =>
              match strip_prefix_l (nl :: dashes) r3 with
              | None => None
              | Some r4 =>
                  first_some (fun r5 =>
                    match strip_prefix_l [nl] r5 with
                    | None => None
                    | Some g2 => Some (g1, g2)
                    end) (ws_star r4)
              end) (lazy_splits r2)
        end) (ws_star l1)
  end.

(** [match.group(1)], [match.group(2)] when the pattern matches. *)
Definition fm_match (content : string) : option (string * string) :=
  match fm_match_l (list_ascii_of_string content) with
  | Some (g1, g2) => Some (string_of_list_ascii g1, string_of_list_ascii g2)
  | None => None
  end.

Section Frontmatter.
(** [yaml.safe_load]: PyYAML is an external library. Its syntax errors
    are [YAMLError]s; some constructor failures are not (an invalid
    calendar date is reported by [datetime.date] as [ValueError]). *)
Variable yaml_safe_load : string -> res pyval.

Definition parse_frontmatter (content : string) : res (pyval * string) :=
  match fm_match content with
  | Some (g1, g2) =>
      match yaml_safe_load g1 with
      | Ok metadata => Ok (if truthy metadata then metadata else PDict [], g2)
      | Raise YAMLError => Ok (PDict [], content)
      | Raise e => Raise e
      end
  | None => Ok (PDict [], content)
  end.
End Frontmatter.

(* ================================================================= *)
(** ** [datetime.strptime] and [strftime] for the two date formats

    CPython's [_strptime] compiles the format to a regex
    ([%Y] = [\d\d\d\d], [%m] = [1[0-2]|0[1-9]|[1-9]],
    [%d] = [3[01]|[12]\d|0[1-9]|[1-9]| [1-9]], [%H] = [2[0-3]|[0-1]\d|\d],
    [%M] = [[0-5]\d|\d], a blank = [\s+]), takes the first match of
    [re.match], raises [ValueError] when input is left over, and builds
    the date, which raises [ValueError] for year 0 or a day past the
    end of the month. A parser returns its results in the engine's
    backtracking order. *)

Definition parser (A : Type) := list ascii -> list (A * list ascii).

Definition p_ret {A} (a : A) : parser A := fun l => [(a, l)].
Definition p_bind {A B} (p : parser A) (f : A -> parser B) : parser B :=
  fun l => flat_map (fun '(a, r) => f a r) (p l).
Definition p_alt {A} (p q : parser A) : parser A := fun l => p l ++ q l.

(** One character [c] with [lo <= c <= hi] (a regex class), returned as
    its digit value. *)
Definition p_range (lo hi : ascii) : parser Z :=
  fun l => match l with
           | c :: r =>
               if ((nat_of_ascii lo <=? nat_of_ascii c) && (nat_of_ascii c <=? nat_of_ascii hi))%nat
               then [(Z.of_nat (nat_of_ascii c) - 48, r)] else []
           | [] => []
           end.

Definition p_digit : parser Z := p_range "0" "9".

Definition p_lit (c : ascii) : parser unit :=
  fun l => match l with
           | d :: r => if Ascii.eqb c d then [(tt, r)] else []
           | [] => []
           end.

(** [\s+], greedy. *)
Definition p_ws1 : parser unit :=
  fun l => let n := lead_ws l in map (fun j => (tt, skipn (n - j) l)) (seq 0 n).

Definition p_two (p q : parser Z) : parser Z :=
  p_bind p (fun a => p_bind q (fun b => p_ret (10 * a + b))).

Definition p_Y : parser Z :=
  p_bind p_digit (fun a => p_bind p_digit (fun b => p_bind p_digit (fun c =>
  p_bind p_digit (fun d => p_ret (1000 * a + 100 * b + 10 * c + d))))).

Definition p_m : parser Z :=
  p_alt (p_two (p_range "1" "1") (p_range "0" "2"))
 (p_alt (p_two (p_range "0" "0") (p_range "1" "9"))
        (p_range "1" "9")).

Definition p_d : parser Z :=
  p_alt (p_two (p_range "3" "3") (p_range "0" "1"))
 (p_alt (p_two (p_range "1" "2") p_digit)
 (p_alt (p_two (p_range "0" "0") (p_range "1" "9"))
 (p_alt (p_range "1" "9")
        (p_bind (p_lit " ") (fun _ => p_range "1" "9"))))).

Definition p_H : parser Z :=
  p_alt (p_two (p_range "2" "2") (p_range "0" "3"))
 (p_alt (p_two (p_range "0" "1") p_digit)
        p_digit).

Definition p_M : parser Z :=
  p_alt (p_two (p_range "0" "5") p_digit) p_digit.

Definition p_ymd : parser (Z * Z * Z) :=
  p_bind p_Y (fun y => p_bind (p_lit "-") (fun _ =>
  p_bind p_m (fun mo => p_bind (p_lit "-") (fun _ =>
  p_bind p_d (fun d => p_ret (y, mo, d)))))).

(** Format ['%Y-%m-%d %H:%M']. *)
Definition p_ymdhm : parser (Z * Z * Z * Z * Z) :=
  p_bind p_ymd (fun '(y, mo, d) => p_bind p_ws1 (fun _ =>
  p_bind p_H (fun h => p_bind (p_lit ":") (fun _ =>
  p_bind p_M (fun mi => p_ret (y, mo, d, h, mi)))))).

Definition is_leap (y : Z) : bool :=
  (Z.eqb (y mod 4) 0 && negb (Z.eqb (y mod 100) 0)) || Z.eqb (y mod 400) 0.

Definition days_in_month (y mo : Z) : Z :=
  if Z.eqb mo 2 then (if is_leap y then 29 else 28)
  else if existsb (Z.eqb mo) [4; 6; 9; 11] then 30 else 31.

(** A datetime value: year, month, day, hour, minute, second. *)
Definition datetime := (Z * Z * Z * Z * Z * Z)%type.

(** [datetime(...)] construction check used by [_strptime]. *)
Definition valid_date (y mo d : Z) : bool :=
  (1 <=? y) && (1 <=? mo) && (mo <=? 12) && (1 <=? d) && (d <=? days_in_month y mo).

Definition run_strptime {A} (p : parser A) (s : string) : option A :=
  match p (list_ascii_of_string s) with
  | (a, []) :: _ => Some a
  | _ => None           (* no match, or "unconverted data remains" *)
  end.

(** [datetime.strptime(s, '%Y-%m-%d %H:%M')]; [None] is [ValueError]. *)
Definition strptime_ymdhm (s : string) : option datetime :=
  match run_strptime p_ymdhm s with
  | Some (y, mo, d, h, mi) => if valid_date y mo d then Some (y, mo, d, h, mi, 0) else None
  | None => None
  end.

(** [datetime.strptime(s, '%Y-%m-%d')]; [None] is [ValueError]. *)
Definition strptime_ymd (s : string) : option datetime :=
  match run_strptime p_ymd s with
  | Some (y, mo, d) => if valid_date y mo d then Some (y, mo, d, 0, 0, 0) else None
  | None => None
  end.

(** [dt.strftime('%Y-%m-%dT%H:%M:%S')] as CPython 3.11 prints it on
    Linux: glibc writes [%Y] as the year's digits without padding (so
    year 999 gives ["999"]), the other fields padded to two digits. *)
Definition strftime_iso (dt : datetime) : string :=
  let '(y, mo, d, h, mi, sec) := dt in
  String.concat "" [Z_to_string y; "-"; zpad 2 mo; "-"; zpad 2 d; "T";
                    zpad 2 h; ":"; zpad 2 mi; ":"; zpad 2 sec].

(* ================================================================= *)
(** ** The world: dedup sets, file system, log, HTTP traffic *)

Inductive level := DEBUG | INFO | WARNING | ERROR.

(** The messages the script logs, by the place that logs them. *)
Inductive msg :=
| MCatLookupFailed (status : Z)    (* 카테고리 조회 실패 *)
| MCatNetError                     (* 카테고리 조회 중 네트워크 오류 *)
| MCatError                        (* 카테고리 조회 중 오류 *)
| MFileCheckError                  (* 파일 확인 중 오류 *)
| MIgnoreProcessed                 (* 이미 처리된 파일 무시 / 수정 무시 *)
| MReadyTimeout                    (* 파일 준비 대기 시간 초과 *)
| MAlreadyHandled                  (* 이미 처리 중이거나 처리된 파일 *)
| MNewFile                         (* 새 파일 감지 *)
| MFileNotFound | MReadPermission | MReadError
| MEmptyFile                       (* 빈 파일 무시 *)
| MDateFormat (s : string)         (* 날짜 형식 오류 (무시됨) *)
| MCategoryMissing                 (* 카테고리 없음 → 미분류로 등록 *)
| MRenderError                     (* 마크다운 변환 오류 *)
| MApiTimeout | MNetError | MApiError
| MPosted (status_msg : string) | MTitle | MCategory | MScheduled | MUrl
| MBackup (backup_name : string)   (* 기존 파일 백업 *)
| MMoved                           (* 파일 이동 *)
| MMoveFailed                      (* 파일 이동 실패 *)
| MPostFailed (status : Z)         (* 포스팅 실패 *)
| MErrorDetail
| MUnexpected.                     (* 예상치 못한 오류 발생 *)

(** The [post_data] dict sent to [/wp-json/wp/v2/posts]. *)
Record post_data := {
  pd_title : pyval;
  pd_content : string;
  pd_status : string;
  pd_date : option string;          (* key 'date' present *)
  pd_categories : option pyval      (* key 'categories' = [id] present *)
}.

(** Whether [json.dumps] encodes a value: dates and datetimes are the
    values it rejects. *)
Fixpoint json_ok (v : pyval) : bool :=
  match v with
  | PDate _ _ _ | PDateTime _ _ _ _ _ _ => false
  | PList l => forallb json_ok l
  | PDict kv => forallb (fun kv1 => json_ok (snd kv1)) kv
  | _ => true
  end.

Definition post_data_json_ok (d : post_data) : bool :=
  json_ok (pd_title d)
  && match pd_categories d with Some v => json_ok v | None => true end.

Inductive http_call :=
| GetCategories                     (* requests.get(.../categories) *)
| CreatePost (d : post_data).       (* requests.post(.../posts) *)

Record world := {
  processing : gset string;         (* MarkdownHandler.processing *)
  processed_files : gset string;    (* global processed_files *)
  fs : gmap string string;          (* regular files: path -> content *)
  logs : list (level * msg);
  http_calls : list http_call;
  created : list post_data;         (* posts the server answered 201 for *)
  slept : nat                       (* time.sleep(retry_delay) calls *)
}.

Definition set_processing (s : gset string) (w : world) : world :=
  {| processing := s; processed_files := processed_files w; fs := fs w; logs := logs w;
     http_calls := http_calls w; created := created w; slept := slept w |}.
Definition set_processed (s : gset string) (w : world) : world :=
  {| processing := processing w; processed_files := s; fs := fs w; logs := logs w;
     http_calls := http_calls w; created := created w; slept := slept w |}.
Definition set_fs (m : gmap string string) (w : world) : world :=
  {| processing := processing w; processed_files := processed_files w; fs := m; logs := logs w;
     http_calls := http_calls w; created := created w; slept := slept w |}.
Definition add_log (e : level * msg) (w : world) : world :=
  {| processing := processing w; processed_files := processed_files w; fs := fs w;
     logs := logs w ++ [e]; http_calls := http_calls w; created := created w; slept := slept w |}.
Definition add_call (c : http_call) (w : world) : world :=
  {| processing := processing w; processed_files := processed_files w; fs := fs w; logs := logs w;
     http_calls := http_calls w ++ [c]; created := created w; slept := slept w |}.
Definition add_created (d : post_data) (w : world) : world :=
  {| processing := processing w; processed_files := processed_files w; fs := fs w; logs := logs w;
     http_calls := http_calls w; created := created w ++ [d]; slept := slept w |}.
Definition add_sleep (w : world) : world :=
  {| processing := processing w; processed_files := processed_files w; fs := fs w; logs := logs w;
     http_calls := http_calls w; created := created w; slept := S (slept w) |}.

(* ================================================================= *)
(** ** A state-and-exception monad: Python statements over the world *)

Definition M (A : Type) := world -> res A * world.

Definition ret {A} (a : A) : M A := fun w => (Ok a, w).
Definition raise {A} (e : exn) : M A := fun w => (Raise e, w).
Definition bind {A B} (m : M A) (k : A -> M B) : M B :=
  fun w => match m w with
           | (Ok a, w') => k a w'
           | (Raise e, w') => (Raise e, w')
           end.
(** [try: m except: h(e)] (state changes of [m] are kept). *)
Definition try_except {A} (m : M A) (h : exn -> M A) : M A :=
  fun w => match m w with
           | (Ok a, w') => (Ok a, w')
           | (Raise e, w') => h e w'
           end.
(** [try: m finally: f]. *)
Definition try_finally {A} (m : M A) (f : M unit) : M A :=
  fun w => match m w with
           | (r, w') => match f w' with
                        | (Ok _, w'') => (r, w'')
                        | (Raise e, w'') => (Raise e, w'')
                        end
           end.
Definition lift {A} (r : res A) : M A := fun w => (r, w).
Definition modify (f : world -> world) : M unit := fun w => (Ok tt, f w).
Definition gets {A} (f : world -> A) : M A := fun w => (Ok (f w), w).

Declare Scope py_scope.
Delimit Scope py_scope with py.
Notation "x <- m ;; k" := (bind m (fun x => k))
  (at level 100, m at next level, right associativity) : py_scope.
Notation "m ;;; k" := (bind m (fun _ => k))
  (at level 100, right associativity) : py_scope.
Local Open Scope py_scope.

Definition log (l : level) (m : msg) : M unit := modify (add_log (l, m)).
Definition discard_processing (p : string) : M unit :=
  modify (fun w => set_processing (processing w ∖ {[p]}) w).
Definition add_processing (p : string) : M unit :=
  modify (fun w => set_processing (processing w ∪ {[p]}) w).
Definition add_processed (p : string) : M unit :=
  modify (fun w => set_processed (processed_files w ∪ {[p]}) w).
Definition sleep : M unit := modify add_sleep.

(* ================================================================= *)
(** ** Python operations on values *)

(** [d.get(k, default)]; [AttributeError] on a non-dict. *)
Definition py_get (d : pyval) (k : string) (default : pyval) : res pyval :=
  match d with
  | PDict kv => Ok (match find (fun '(k', _) => String.eqb k k') kv with
                    | Some (_, v) => v
                    | None => default
                    end)
  | _ => Raise AttributeError
  end.

(** [d[k]]: [KeyError] when missing, [TypeError] on a non-mapping. *)
Definition py_getitem (d : pyval) (k : string) : res pyval :=
  match d with
  | PDict kv => match find (fun '(k', _) => String.eqb k k') kv with
                | Some (_, v) => Ok v
                | None => Raise KeyError
                end
  | _ => Raise TypeError
  end.

(** [v.lower()]: only [str] has it. *)
Definition py_lower_val (v : pyval) : res string :=
  match v with
  | PStr s => Ok (py_lower s)
  | _ => Raise AttributeError
  end.

(** [for x in v]: the items a [for] loop visits. *)
Definition py_iter (v : pyval) : res (list pyval) :=
  match v with
  | PList l => Ok l
  | PDict kv => Ok (map (fun '(k, _) => PStr k) kv)
  | PStr s => Ok (map (fun c => PStr (String c EmptyString)) (list_ascii_of_string s))
  | _ => Raise TypeError
  end.

(* ================================================================= *)
(** ** External collaborators of one event *)

(** What [requests.get] / [requests.post] produce: a transport
    exception, or a response with its status code and the outcome of
    [response.json()]. *)
Inductive http_resp :=
| HTimeout
| HConnError
| HReqError
| HResp (status : Z) (json : res pyval).

(** One size observation of [wait_for_file_ready]. *)
Inductive poll :=
| PollMissing                 (* filepath.exists() is False *)
| PollSize (n : Z)            (* filepath.stat().st_size *)
| PollError.                  (* stat raised OSError / PermissionError *)

Record env := {
  e_published_folder : string;                  (* PUBLISHED_FOLDER, normalised *)
  e_read_error : option exn;                    (* open/read raising besides a missing file *)
  e_yaml : string -> res pyval;                 (* yaml.safe_load *)
  e_render : string -> res string;              (* markdown.markdown(body, ...) *)
  e_categories : http_resp;                     (* GET /categories *)
  e_post : http_resp;                           (* POST /posts *)
  e_time : Z;                                   (* int(time.time()) *)
  e_makedirs_error : option exn;                (* os.makedirs(PUBLISHED_FOLDER, exist_ok=True) *)
  e_move_error : string -> string -> option exn; (* shutil.move(src, dst) failing *)
  e_polls : nat -> poll                         (* observation at attempt k *)
}.

(* ================================================================= *)
(** ** [pathlib.Path] on normalised POSIX path strings *)

Definition slash : ascii := "/"%char.

(** [Path(p).name]: the last component. *)
Definition path_name (p : string) : string :=
  let fix go (l acc : list ascii) :=
    match l with
    | [] => rev acc
    | c :: r => if Ascii.eqb c slash then go r [] else go r (c :: acc)
    end in
  string_of_list_ascii (go (list_ascii_of_string p) []).

(** [name.rfind('.')], as a 0-based index. *)
Definition rfind_dot (l : list ascii) : option nat :=
  let fix go (l : list ascii) (i : nat) (best : option nat) :=
    match l with
    | [] => best
    | c :: r => go r (S i) (if Ascii.eqb c "."%char then Some i else best)
    end in go l 0%nat None.

(** [Path.suffix] / [Path.stem]: the suffix starts at the last dot
    when [0 < i < len(name) - 1]. *)
Definition suffix_index (name : string) : option nat :=
  let l := list_ascii_of_string name in
  match rfind_dot l with
  | Some i => if ((0 <? i) && (i <? length l - 1))%nat then Some i else None
  | None => None
  end.

Definition path_suffix (p : string) : string :=
  let n := path_name p in
  match suffix_index n with
  | Some i => py_drop i n
  | None => ""
  end.

Definition path_stem (p : string) : string :=
  let n := path_name p in
  match suffix_index n with
  | Some i => string_of_list_ascii (firstn i (list_ascii_of_string n))
  | None => n
  end.

(** [Path(folder) / name]. *)
Definition path_join (folder name : string) : string :=
  String.concat "" [folder; "/"; name].

(* ================================================================= *)
(** ** [get_category_id] (lines 62-90) *)

Definition opt_truthy (o : option pyval) : bool :=
  match o with Some v => truthy v | None => false end.

(** [for cat in categories: if cat['name'].lower() == name_lower:
    return cat['id']]. *)
Fixpoint find_category (name_lower : string) (cats : list pyval) : res (option pyval) :=
  match cats with
  | [] => Ok None
  | cat :: rest =>
      match py_getitem cat "name" with
      | Raise e => Raise e
      | Ok n =>
          match py_lower_val n with
          | Raise e => Raise e
          | Ok nl' =>
              if String.eqb nl' name_lower then
                match py_getitem cat "id" with
                | Ok i => Ok (Some i)
                | Raise e => Raise e
                end
              else find_category name_lower rest
          end
      end
  end.

Definition http_raise {A} (r : http_resp) (k : Z -> res pyval -> M A) : M A :=
  match r with
  | HTimeout => raise RequestTimeout
  | HConnError => raise RequestConnectionError
  | HReqError => raise RequestError
  | HResp st js => k st js
  end.

Definition get_category_id (ev : env) (category_name : pyval) : M (option pyval) :=
  if negb (truthy category_name) then ret None else
  try_except
    (modify (add_call GetCategories) ;;;
     http_raise (e_categories ev) (fun st js =>
       if st =? 200 then
         categories <- lift js ;;
         category_name_lower <- lift (py_lower_val category_name) ;;
         cats <- lift (py_iter categories) ;;
         lift (find_category category_name_lower cats)
       else log WARNING (MCatLookupFailed st) ;;; ret None))
    (fun e => if is_request_exc e then log ERROR MCatNetError ;;; ret None
              else log ERROR MCatError ;;; ret None).

(* ================================================================= *)
(** ** Field resolution inside [post_to_wordpress] (lines 210-242) *)

(** The heading scan: first line starting with ['# '], its title, and
    [body.replace(line + '\n', '', 1)]. *)
Definition scan_heading (body : string) : option string * string :=
  match find (fun line => py_startswith line "# ") (py_split_nl body) with
  | Some line => (Some (py_strip (py_drop 2 line)),
                  py_replace1 body (String.append line (String nl EmptyString)) "")
  | None => (None, body)
  end.

(** Lines 210-220; [stem] is [filepath.stem]. *)
Definition resolve_title (metadata : pyval) (body stem : string) : M (pyval * string) :=
  title <- lift (py_get metadata "title" PNone) ;;
  if truthy title then ret (title, body) else
  let '(found, body') := scan_heading body in
  let title' := match found with Some t => PStr t | None => title end in
  ret (if truthy title' then title' else PStr stem, body').

(** Lines 222-225. *)
Definition resolve_status (metadata : pyval) : M string :=
  s <- lift (py_get metadata "status" (PStr "draft")) ;;
  status <- lift (py_lower_val s) ;;
  ret (if existsb (String.eqb status) ["publish"; "draft"; "future"] then status else "draft").

(** Lines 229-242, from the value of [metadata.get('date')]. *)
Definition date_str_of (post_date : pyval) : M (option string) :=
  if truthy post_date then
    match post_date with
    | PDateTime y mo d h mi sec => ret (Some (strftime_iso (y, mo, d, h, mi, sec)))
    | PStr s =>
        match strptime_ymdhm s with
        | Some dt => ret (Some (strftime_iso dt))
        | None =>
            match strptime_ymd s with
            | Some dt => ret (Some (strftime_iso dt))
            | None => log WARNING (MDateFormat s) ;;; ret None
            end
        end
    | _ => ret None
    end
  else ret None.

Definition resolve_date (metadata : pyval) : M (option string) :=
  post_date <- lift (py_get metadata "date" PNone) ;;
  date_str_of post_date.

Definition opt_str_truthy (o : option string) : bool :=
  match o with Some s => negb (String.eqb s "") | None => false end.

(* ================================================================= *)
(** ** [wait_for_file_ready] (lines 108-130)

    [polls k] is what attempt [k] observes; each [time.sleep(retry_delay)]
    is one step of [slept]. *)

Fixpoint wfr_loop (polls : nat -> poll) (attempt fuel : nat) (last_size : Z) : M bool :=
  match fuel with
  | O => ret false
  | S fuel' =>
      match polls attempt with
      | PollMissing => sleep ;;; wfr_loop polls (S attempt) fuel' last_size
      | PollError => log DEBUG MFileCheckError ;;; sleep ;;; wfr_loop polls (S attempt) fuel' last_size
      | PollSize current_size =>
          if (current_size =? last_size) && (0 <? current_size) then sleep ;;; ret true
          else sleep ;;; wfr_loop polls (S attempt) fuel' current_size
      end
  end.

Definition wait_for_file_ready (polls : nat -> poll) (max_retries : nat) : M bool :=
  wfr_loop polls 0 max_retries 0.

(* ================================================================= *)
(** ** [post_to_wordpress] (lines 172-348) *)

Section Publisher.
Variable ev : env.

Definition file_exists (path : string) : M bool :=
  gets (fun w => match fs w !! path with Some _ => true | None => false end).

(** [shutil.move(src, dst)] of a regular file: [os.rename], which
    replaces an existing [dst] on POSIX. *)
Definition move (src dst : string) : M unit :=
  fun w => match e_move_error ev src dst with
           | Some e => (Raise e, w)
           | None => match fs w !! src with
                     | Some c => (Ok tt, set_fs (<[dst := c]> (delete src (fs w))) w)
                     | None => (Raise FileNotFoundError, w)
                     end
           end.

(** Lines 186-200. *)
Definition read_file (filepath_str : string) : M (option string) :=
  fun w =>
    let r := match e_read_error ev with
             | Some e => Raise e
             | None => match fs w !! filepath_str with
                       | Some c => Ok c
                       | None => Raise FileNotFoundError
                       end
             end in
    match r with
    | Ok c => (Ok (Some c), w)
    | Raise e =>
        ((match e with
          | FileNotFoundError => log ERROR MFileNotFound
          | PermissionError => log ERROR MReadPermission
          | _ => log ERROR MReadError
          end) ;;; discard_processing filepath_str ;;; ret None) w
    end.

(** Lines 315-335: the archive move after a 201. [dest] is bound at
    line 318, after [os.makedirs]; the handler's message reads it. *)
Definition archive (filepath_str : string) : M unit :=
  match e_makedirs_error ev with
  | Some e =>
      if is_oserror e then raise UnboundLocalError  (* f"... → {dest} ..." with dest unbound *)
      else raise e
  | None =>
      let dest := path_join (e_published_folder ev) (path_name filepath_str) in
      try_except
        (ex <- file_exists dest ;;
         (if ex then
            let backup_name := String.concat ""
                  [path_stem dest; "_"; Z_to_string (e_time ev); path_suffix dest] in
            let backup_path := path_join (e_published_folder ev) backup_name in
            move dest backup_path ;;; log INFO (MBackup backup_name)
          else ret tt) ;;;
         move filepath_str dest ;;;
         log INFO MMoved ;;;
         add_processed filepath_str)
        (fun e => if is_oserror e then log ERROR MMoveFailed ;;; add_processed filepath_str
                  else raise e)
  end.

Definition status_msg (status : string) : string :=
  if String.eqb status "publish" then "발행완료"
  else if String.eqb status "draft" then "임시저장"
  else if String.eqb status "future" then "예약발행"
  else status.

(** Lines 274-343. [requests.post(..., json=post_data)] first encodes
    [post_data] with [json.dumps], which raises [TypeError] on a value it
    cannot encode (a date); that happens before anything is sent, and no
    [except] of lines 282-297 catches it. *)
Definition submit (filepath_str : string) (post_data : post_data) (status : string)
    (category_name : pyval) (category_id : option pyval) (date_str : option string) : M unit :=
  if negb (post_data_json_ok post_data) then raise TypeError else
  modify (add_call (CreatePost post_data)) ;;;
  match e_post ev with
  | HTimeout => log ERROR MApiTimeout ;;; discard_processing filepath_str
  | HConnError => log ERROR MNetError ;;; discard_processing filepath_str
  | HReqError => log ERROR MApiError ;;; discard_processing filepath_str
  | HResp code js =>
      if code =? 201 then
        modify (add_created post_data) ;;;
        post_response <- lift js ;;
        _post_url <- lift (py_get post_response "link" (PStr "")) ;;
        log INFO (MPosted (status_msg status)) ;;;
        log INFO MTitle ;;;
        (if truthy category_name && opt_truthy category_id then log INFO MCategory else ret tt) ;;;
        (if opt_str_truthy date_str && String.eqb status "future" then log INFO MScheduled
         else ret tt) ;;;
        log INFO MUrl ;;;
        archive filepath_str
      else
        (* both branches of the inner try log the error text *)
        log ERROR (MPostFailed code) ;;; log ERROR MErrorDetail
  end.

(** The body of the outer [try] (lines 185-343). *)
Definition attempt (filepath_str : string) : M unit :=
  oc <- read_file filepath_str ;;
  match oc with
  | None => ret tt
  | Some content =>
      if String.eqb (py_strip content) "" then
        log WARNING MEmptyFile ;;; discard_processing filepath_str
      else
        mb <- lift (parse_frontmatter (e_yaml ev) content) ;;
        let '(metadata, body0) := mb in
        tb <- resolve_title metadata body0 (path_stem filepath_str) ;;
        let '(title, body) := tb in
        status <- resolve_status metadata ;;
        date_str <- resolve_date metadata ;;
        category_name <- lift (py_get metadata "category" PNone) ;;
        category_id <- get_category_id ev category_name ;;
        (if truthy category_name && negb (opt_truthy category_id)
         then log WARNING MCategoryMissing else ret tt) ;;;
        match e_render ev body with
        | Raise _ => log ERROR MRenderError ;;; discard_processing filepath_str
        | Ok html_content =>
            let pd := {| pd_title := title;
                         pd_content := html_content;
                         pd_status := status;
                         pd_date := if opt_str_truthy date_str then date_str else None;
                         pd_categories := if opt_truthy category_id then category_id else None |} in
            submit filepath_str pd status category_name category_id date_str
        end
  end.

Definition is_tracked (p : string) (w : world) : bool :=
  bool_decide (p ∈ processed_files w) || bool_decide (p ∈ processing w).

Definition post_to_wordpress (filepath_str : string) : M unit :=
  tracked <- gets (is_tracked filepath_str) ;;
  if tracked then log DEBUG MAlreadyHandled else
  add_processing filepath_str ;;;
  log INFO MNewFile ;;;
  try_finally
    (try_except (attempt filepath_str) (fun _ => log ERROR MUnexpected))
    (discard_processing filepath_str).

(** A watchdog file event. *)
Record event := { is_directory : bool; src_path : string }.

(** Lines 137-151. *)
Definition on_created (e : event) : M unit :=
  if is_directory e then ret tt else
  if py_endswith (src_path e) ".md" then
    let filepath := src_path e in
    tracked <- gets (is_tracked filepath) ;;
    if tracked then log DEBUG MIgnoreProcessed else
    ready <- wait_for_file_ready (e_polls ev) 10 ;;
    if ready then post_to_wordpress filepath else log WARNING MReadyTimeout
  else ret tt.

(** Lines 153-170. *)
Definition on_modified (e : event) : M unit :=
  if is_directory e then ret tt else
  if py_endswith (src_path e) ".md" then
    let filepath := src_path e in
    if negb (String.eqb (e_published_folder ev) "")
       && py_startswith filepath (e_published_folder ev) then ret tt else
    done_ <- gets (fun w => bool_decide (filepath ∈ processed_files w)) ;;
    if done_ then log DEBUG MIgnoreProcessed else
    in_flight <- gets (fun w => bool_decide (filepath ∈ processing w)) ;;
    if negb in_flight then
      ready <- wait_for_file_ready (e_polls ev) 10 ;;
      if ready then post_to_wordpress filepath else ret tt
    else ret tt
  else ret tt.
End Publisher.

(* ================================================================= *)
(** ** Concrete inputs used by the properties below *)

Definition watch_path : string := "/watch/note.md".

Definition world_with (files : gmap string string) : world :=
  {| processing := ∅; processed_files := ∅; fs := files; logs := [];
     http_calls := []; created := []; slept := 0 |}.

(** A file [watch_path] with [content] in the watch folder. *)
Definition sample_world (content : string) : world := world_with {[watch_path := content]}.

Definition created_response : http_resp :=
  HResp 201 (Ok (PDict [("link", PStr "https://blog.example/?p=1")])).

(** An environment in which every collaborator succeeds: the server
    answers 201, PUBLISHED_FOLDER is "/published", moves succeed. The
    renderer is the identity so the body sent can be read off. *)
Definition mk_env (yaml : string -> res pyval) (cats : http_resp) (post : http_resp)
    (makedirs : option exn) (move_err : string -> string -> option exn)
    (polls : nat -> poll) : env :=
  {| e_published_folder := "/published"; e_read_error := None; e_yaml := yaml;
     e_render := fun b => Ok b; e_categories := cats; e_post := post;
     e_time := 1760000000; e_makedirs_error := makedirs; e_move_error := move_err;
     e_polls := polls |}.

Definition no_yaml : string -> res pyval := fun _ => Raise YAMLError.
Definition no_move_error : string -> string -> option exn := fun _ _ => None.
Definition steady_polls : nat -> poll := fun _ => PollSize 5.

(** The server publishes, but [os.makedirs(PUBLISHED_FOLDER, exist_ok=True)]
    raises [PermissionError] (the folder was removed and its parent is
    read-only, or it was replaced by a file: [FileExistsError]). *)
Definition makedirs_fails_env : env :=
  mk_env no_yaml (HResp 200 (Ok (PList []))) created_response
         (Some PermissionError) no_move_error steady_polls.

(** The server refuses the post (HTTP 500). *)
Definition server_error_env : env :=
  mk_env no_yaml (HResp 200 (Ok (PList []))) (HResp 500 (Ok (PDict [("message", PStr "boom")])))
         None no_move_error steady_polls.

(** A frontmatter block whose date is not a calendar date. *)
Definition bad_date_doc : string := "---
date: 2026-02-30
---
body
".

(** A post whose frontmatter has an unquoted date: [yaml.safe_load]
    turns [date: 2026-01-15] into a [datetime.date]. *)
Definition unquoted_date_doc : string := "---
date: 2026-01-15
---
Hello
".

Definition unquoted_date_env : env :=
  mk_env (fun _ => Ok (PDict [("date", PDate 2026 1 15)])) (HResp 200 (Ok (PList [])))
         created_response None no_move_error steady_polls.

Definition is_warning (e : level * msg) : bool :=
  match fst e with WARNING => true | _ => false end.

(** Every collaborator succeeds and there is no frontmatter. *)
Definition ok_env : env :=
  mk_env no_yaml (HResp 200 (Ok (PList []))) created_response None no_move_error steady_polls.

(** A file that is still being written: every poll sees it one byte longer. *)
Definition growing_polls : nat -> poll := fun k => PollSize (Z.of_nat k + 1).

Definition growing_env : env :=
  mk_env no_yaml (HResp 200 (Ok (PList []))) created_response None no_move_error growing_polls.

Definition watch_event : event := {| is_directory := false; src_path := watch_path |}.

(** The archive already holds [note.md] and a backup of an earlier copy
    taken in the same second as the one about to be made. *)
Definition crowded_archive : gmap string string :=
  {[watch_path := "new"; "/published/note.md" := "old";
    "/published/note_1760000000.md" := "older"]}.

Definition has_content (c : string) (files : gmap string string) : bool :=
  existsb (fun kv => String.eqb (snd kv) c) (map_to_list files).

(** The category lookup as the spec words it: the identifier of the first
    category whose name equals [name] ignoring case. *)
Definition spec_category_match (name : string) (cats : list (string * pyval)) : option pyval :=
  option_map snd (find (fun '(n, _) => String.eqb (py_lower n) (py_lower name)) cats).

(** A category object of the response with name [n] and id [i]. *)
Definition category_has (c : pyval) (ni : string * pyval) : Prop :=
  py_getitem c "name" = Ok (PStr (fst ni)) /\ py_getitem c "id" = Ok (snd ni).

(** The category request fails: network error or a non-200 status. *)
Definition category_lookup_fails (ev : env) : Prop :=
  match e_categories ev with
  | HResp st _ => st <> 200
  | _ => True
  end.

Definition no_categories (c : http_call) : Prop :=
  match c with CreatePost pd => pd_categories pd = None | GetCategories => True end.

(** The server lists one category, "Tech" with id 3. *)
Definition tech_categories : http_resp :=
  HResp 200 (Ok (PList [PDict [("id", PInt 3); ("name", PStr "Tech"); ("count", PInt 7)]])).

Definition tech_env : env :=
  mk_env no_yaml tech_categories created_response None no_move_error steady_polls.

(** The category request times out; the post itself is accepted. *)
Definition category_timeout_env : env :=
  mk_env (fun _ => Ok (PDict [("category", PStr "Tech")])) HTimeout created_response
         None no_move_error steady_polls.






(* ================================================================= *)
(** ** [process_existing_files] (lines 351-361) *)

(** [for filepath in existing_files: handler.post_to_wordpress(str(filepath))].
    The [k]-th call meets the collaborators of [ev_at k]: each post gets
    its own server answers, read errors, clock and moves. *)
Fixpoint post_all (ev_at : nat -> env) (files : list string) : M unit :=
  match files with
  | [] => ret tt
  | f :: rest => post_to_wordpress (ev_at 0%nat) f ;;; post_all (fun k => ev_at (S k)) rest
  end.

(** The two lines [process_existing_files] logs itself. *)
Inductive existing_msg := EFound (n : nat) | EError.

(** [listing] is [list(Path(WATCH_FOLDER).glob('*.md'))] as strings, in
    the order the directory scan yields them, or the exception it raises.
    The result is the list of lines the function logs itself, in order. *)
Definition process_existing_files (ev_at : nat -> env) (listing : res (list string))
    : M (list (level * existing_msg)) :=
  match listing with
  | Raise _ => ret [(ERROR, EError)]
  | Ok [] => ret []
  | Ok existing_files =>
      try_except
        (post_all ev_at existing_files ;;; ret [(INFO, EFound (length existing_files))])
        (fun _ => ret [(INFO, EFound (length existing_files)); (ERROR, EError)])
  end.

(* ================================================================= *)
(** ** [validate_config] (lines 364-411) *)

Inductive config_error :=
| WpUrlMissing | WpUrlScheme | WpUrlFormat
| WpUserMissing | WpPasswordMissing
| WatchMissing | WatchNotDir | WatchAccess
| PublishedMissing | PublishedNotDir | PublishedAccess
| SameFolder.

(** The five settings as [os.getenv] returns them. *)
Record config := {
  c_wp_url : option string;
  c_wp_user : option string;
  c_wp_password : option string;
  c_watch : option string;
  c_published : option string }.

(** The host's answers: [urlparse(url).netloc] (or the exception it
    raises); [Path(f).mkdir(parents=True, exist_ok=True)] followed by
    [Path(f).is_dir()] (or the exception [mkdir] raises); and
    [Path(f).resolve()] (or the exception it raises). *)
Record host := {
  h_netloc : string -> res string;
  h_mkdir_is_dir : string -> res bool;
  h_resolve : string -> res string }.

(** [if not X] on a setting: unset or empty. *)
Definition opt_set (o : option string) : option string :=
  match o with Some s => if String.eqb s "" then None else Some s | None => None end.

Definition folder_errors (h : host) (missing notdir access : config_error) (o : option string)
    : list config_error :=
  match opt_set o with
  | None => [missing]
  | Some f => match h_mkdir_is_dir h f with
              | Ok true => []
              | Ok false => [notdir]
              | Raise _ => [access]
              end
  end.

Definition validate_config (h : host) (c : config) : res (list config_error) :=
  let url_errors :=
    match opt_set (c_wp_url c) with
    | None => [WpUrlMissing]
    | Some u =>
        if py_startswith u "http://" || py_startswith u "https://" then
          match h_netloc h u with
          | Ok netloc => if String.eqb netloc "" then [WpUrlFormat] else []
          | Raise _ => [WpUrlFormat]
          end
        else [WpUrlScheme]
    end in
  let user_errors := match opt_set (c_wp_user c) with None => [WpUserMissing] | Some _ => [] end in
  let password_errors :=
    match opt_set (c_wp_password c) with None => [WpPasswordMissing] | Some _ => [] end in
  let errors := url_errors ++ user_errors ++ password_errors
                ++ folder_errors h WatchMissing WatchNotDir WatchAccess (c_watch c)
                ++ folder_errors h PublishedMissing PublishedNotDir PublishedAccess (c_published c) in
  match opt_set (c_watch c), opt_set (c_published c) with
  | Some wf, Some pf =>
      match h_resolve h wf, h_resolve h pf with
      | Ok rw, Ok rp => Ok (errors ++ (if String.eqb rw rp then [SameFolder] else []))
      | Raise e, _ => Raise e
      | _, Raise e => Raise e
      end
  | _, _ => Ok errors
  end.

(* ================================================================= *)
(** ** Readiness, read over the whole sequence of polls *)

(** The size [last_size] holds when attempt [k] starts: the size seen by
    the latest earlier poll that saw one, else 0. *)
Fixpoint last_size_before (polls : nat -> poll) (k : nat) : Z :=
  match k with
  | O => 0
  | S k' => match polls k' with PollSize s => s | _ => last_size_before polls k' end
  end.

Definition ready_at (polls : nat -> poll) (k : nat) : bool :=
  match polls k with
  | PollSize s => (s =? last_size_before polls k) && (0 <? s)
  | _ => false
  end.

Definition first_ready (polls : nat -> poll) (n : nat) : option nat :=
  find (ready_at polls) (seq 0 n).

Definition found {A} (o : option A) : bool := match o with Some _ => true | None => false end.


(** ** The paths of the archive step *)

(** [dest] (line 318) and [backup_path] (lines 322-323) of the archive step. *)
Definition archive_dest (ev : env) (p : string) : string :=
  path_join (e_published_folder ev) (path_name p).

Definition archive_backup (ev : env) (p : string) : string :=
  let dest := archive_dest ev p in
  path_join (e_published_folder ev)
    (String.concat "" [path_stem dest; "_"; Z_to_string (e_time ev); path_suffix dest]).



(** A category list whose first entry has no name, then a match for
    ["Tech"]. *)
Definition nameless_first_categories : http_resp :=
  HResp 200 (Ok (PList [PDict [("id", PInt 1)];
                        PDict [("id", PInt 3); ("name", PStr "Tech")]])).

Definition nameless_first_env : env :=
  mk_env no_yaml nameless_first_categories created_response None no_move_error steady_polls.


(** The checks of [validate_config] one by one, as its body builds them. *)
Definition url_errors (h : host) (c : config) : list config_error :=
  match opt_set (c_wp_url c) with
  | None => [WpUrlMissing]
  | Some u =>
      if py_startswith u "http://" || py_startswith u "https://" then
        match h_netloc h u with
        | Ok netloc => if String.eqb netloc "" then [WpUrlFormat] else []
        | Raise _ => [WpUrlFormat]
        end
      else [WpUrlScheme]
  end.

Definition setting_errors (h : host) (c : config) : list config_error :=
  url_errors h c
  ++ match opt_set (c_wp_user c) with None => [WpUserMissing] | Some _ => [] end
  ++ match opt_set (c_wp_password c) with None => [WpPasswordMissing] | Some _ => [] end
  ++ folder_errors h WatchMissing WatchNotDir WatchAccess (c_watch c)
  ++ folder_errors h PublishedMissing PublishedNotDir PublishedAccess (c_published c).


(** A host on which every folder can be created and the URL parses, and
    a configuration with the user empty and the password and published
    folder unset. *)
Definition sample_host : host :=
  {| h_netloc := fun _ => Ok "blog.example.com";
     h_mkdir_is_dir := fun _ => Ok true;
     h_resolve := fun s => Ok s |}.

Definition partial_config : config :=
  {| c_wp_url := Some "https://blog.example.com";
     c_wp_user := Some "";
     c_wp_password := None;
     c_watch := Some "/home/me/drafts";
     c_published := None |}.


(** ** Runs that publish nothing *)






(* ================================================================= *)
(** * Properties *)

(** ** Invariants of the world carried by a computation *)

Definition preserves (R : world -> world -> Prop) {A} (m : M A) : Prop :=
  forall w, R w (snd (m w)).

Section Preserves.
Variable R : world -> world -> Prop.
Hypothesis R_refl : forall w, R w w.
Hypothesis R_trans : forall w1 w2 w3, R w1 w2 -> R w2 w3 -> R w1 w3.

Lemma pres_ret {A} (a : A) : preserves R (ret a).
Proof. intros w. apply R_refl. Qed.

Lemma pres_raise {A} e : preserves R (@raise A e).
Proof. intros w. apply R_refl. Qed.

Lemma pres_lift {A} (r : res A) : preserves R (lift r).
Proof. intros w. apply R_refl. Qed.

Lemma pres_gets {A} (f : world -> A) : preserves R (gets f).
Proof. intros w. apply R_refl. Qed.

Lemma pres_modify f : (forall w, R w (f w)) -> preserves R (modify f).
Proof. intros H w. apply H. Qed.

Lemma pres_bind {A B} (m : M A) (k : A -> M B) :
  preserves R m -> (forall a, preserves R (k a)) -> preserves R (bind m k).
Proof.
  intros Hm Hk w. unfold bind. specialize (Hm w).
  destruct (m w) as [[a|e] w'] eqn:E; simpl in *; [|exact Hm].
  eapply R_trans; [exact Hm | apply Hk].
Qed.

Lemma pres_try_except {A} (m : M A) (h : exn -> M A) :
  preserves R m -> (forall e, preserves R (h e)) -> preserves R (try_except m h).
Proof.
  intros Hm Hh w. unfold try_except. specialize (Hm w).
  destruct (m w) as [[a|e] w'] eqn:E; simpl in *; [exact Hm|].
  eapply R_trans; [exact Hm | apply Hh].
Qed.

Lemma pres_try_finally {A} (m : M A) (f : M unit) :
  preserves R m -> preserves R f -> preserves R (try_finally m f).
Proof.
  intros Hm Hf w. unfold try_finally. specialize (Hm w).
  destruct (m w) as [r w'] eqn:E. specialize (Hf w').
  destruct (f w') as [[u|e] w''] eqn:F; simpl in *; eapply R_trans; eauto.
Qed.
End Preserves.

(** [grows]: the server's acknowledged posts and the completed set only
    grow. [quiet]: moreover, the completed set changes only if a post
    was acknowledged. *)
Definition grows (w w' : world) : Prop :=
  (exists l, created w' = created w ++ l) /\ processed_files w ⊆ processed_files w'.

Definition quiet (w w' : world) : Prop :=
  grows w w' /\ (created w' = created w -> processed_files w' = processed_files w).

Lemma grows_refl w : grows w w.
Proof. split; [exists []; by rewrite app_nil_r | set_solver]. Qed.

Lemma grows_trans w1 w2 w3 : grows w1 w2 -> grows w2 w3 -> grows w1 w3.
Proof.
  intros [[l1 H1] S1] [[l2 H2] S2]. split; [|set_solver].
  exists (l1 ++ l2). by rewrite H2, H1, app_assoc.
Qed.

Lemma quiet_refl w : quiet w w.
Proof. split; [apply grows_refl | done]. Qed.

Lemma quiet_trans w1 w2 w3 : quiet w1 w2 -> quiet w2 w3 -> quiet w1 w3.
Proof.
  intros [G1 Q1] [G2 Q2]. split; [eapply grows_trans; eauto|].
  destruct G1 as [[l1 H1] _], G2 as [[l2 H2] _]. intros E.
  rewrite H2, H1, <- app_assoc in E.
  assert (l1 ++ l2 = []) as Hn.
  { apply (f_equal length) in E. rewrite !length_app in E.
    apply length_zero_iff_nil. rewrite length_app. lia. }
  apply app_eq_nil in Hn as [-> ->]. rewrite app_nil_r in H1, H2.
  rewrite Q2, Q1; auto.
Qed.

Lemma quiet_same w w' :
  created w' = created w -> processed_files w' = processed_files w -> quiet w w'.
Proof.
  intros Hc Hp. split; [split|]; [exists []; by rewrite app_nil_r, Hc | set_solver | done].
Qed.

Lemma grows_of_quiet w w' : quiet w w' -> grows w w'.
Proof. by intros [G _]. Qed.

Ltac rel_facts :=
  first [ exact grows_refl | exact quiet_refl | exact grows_trans | exact quiet_trans ].

Ltac pres_step :=
  match goal with
  | |- preserves _ (bind _ _) => apply pres_bind; [rel_facts | | intro]
  | |- preserves _ (try_except _ _) => apply pres_try_except; [rel_facts | | intro]
  | |- preserves _ (try_finally _ _) => apply pres_try_finally; [rel_facts | |]
  | |- preserves _ (ret _) => apply pres_ret; rel_facts
  | |- preserves _ (raise _) => apply pres_raise; rel_facts
  | |- preserves _ (lift _) => apply pres_lift; rel_facts
  | |- preserves _ (gets _) => apply pres_gets; rel_facts
  | |- preserves _ (modify _) => apply pres_modify; intro
  | |- preserves _ (match ?x with _ => _ end) => destruct x
  end.

Create HintDb world_rel.
#[local] Hint Resolve grows_refl grows_trans quiet_refl quiet_trans : world_rel.

Ltac unfold_prims :=
  unfold log, add_processed, discard_processing, add_processing, sleep, file_exists.

Ltac pres_quiet :=
  unfold_prims;
  repeat (pres_step; try (apply quiet_same; reflexivity));
  try (apply quiet_same; reflexivity).

Lemma move_quiet ev src dst : preserves quiet (move ev src dst).
Proof.
  intros w. unfold move. destruct (e_move_error ev src dst); [apply quiet_refl|].
  destruct (fs w !! src); [apply quiet_same; reflexivity | apply quiet_refl].
Qed.

Lemma read_file_quiet ev p : preserves quiet (read_file ev p).
Proof.
  intros w. unfold read_file.
  destruct (e_read_error ev) as [e|]; [|destruct (fs w !! p)]; try apply quiet_refl;
    try (destruct e); apply quiet_same; reflexivity.
Qed.

Lemma grows_same w w' :
  created w' = created w -> processed_files w ⊆ processed_files w' -> grows w w'.
Proof. intros Hc Hp. split; [exists []; by rewrite app_nil_r, Hc | done]. Qed.

Lemma move_grows ev src dst : preserves grows (move ev src dst).
Proof. intros w. apply grows_of_quiet, move_quiet. Qed.

Ltac pres_grows :=
  unfold_prims;
  repeat (first [ apply move_grows
                | pres_step
                | apply grows_same; [reflexivity | simpl; set_solver] ]).

Lemma archive_grows ev p : preserves grows (archive ev p).
Proof.
  unfold archive. destruct (e_makedirs_error ev); [destruct (is_oserror e)|]; pres_grows.
Qed.

Lemma get_category_id_quiet ev v : preserves quiet (get_category_id ev v).
Proof.
  unfold get_category_id, http_raise. pres_quiet.
Qed.

Lemma resolve_title_quiet md body stem : preserves quiet (resolve_title md body stem).
Proof. unfold resolve_title. pres_quiet. Qed.

Lemma resolve_status_quiet md : preserves quiet (resolve_status md).
Proof. unfold resolve_status. pres_quiet. Qed.

Lemma resolve_date_quiet md : preserves quiet (resolve_date md).
Proof. unfold resolve_date, date_str_of. pres_quiet. Qed.

(** Once the server has acknowledged a post, whatever follows only
    grows the world. *)
Lemma quiet_after_created {A} d (k : M A) :
  preserves grows k -> preserves quiet (modify (add_created d) ;;; k).
Proof.
  intros Hk w. unfold bind, modify. specialize (Hk (add_created d w)).
  destruct Hk as [[l Hl] Hs]. simpl in *. split; [split|].
  - exists (d :: l). by rewrite Hl, <- app_assoc.
  - exact Hs.
  - intros E. rewrite Hl, <- app_assoc in E.
    apply (f_equal length) in E. rewrite !length_app in E. simpl in E. lia.
Qed.

Lemma submit_quiet ev p pd st cn ci ds : preserves quiet (submit ev p pd st cn ci ds).
Proof.
  unfold submit. destruct (negb (post_data_json_ok pd)); [pres_quiet|]. apply pres_bind; [exact quiet_trans | |].
  { apply pres_modify. intro. apply quiet_same; reflexivity. }
  intros _. destruct (e_post ev) as [| | |code js]; [pres_quiet..|].
  destruct (code =? 201).
  - apply quiet_after_created. pres_grows. all: apply archive_grows.
  - pres_quiet.
Qed.

Lemma attempt_quiet ev p : preserves quiet (attempt ev p).
Proof.
  unfold attempt. unfold_prims.
  repeat (first [ apply read_file_quiet | apply resolve_title_quiet | apply resolve_status_quiet
                | apply resolve_date_quiet | apply get_category_id_quiet | apply submit_quiet
                | pres_step | apply quiet_same; reflexivity ]).
Qed.

Lemma try_finally_world {A} (m : M A) f w : snd (try_finally m f w) = snd (f (snd (m w))).
Proof. unfold try_finally. destruct (m w) as [r w']. simpl. by destruct (f w') as [[]]. Qed.

(** An admitted call: [post_to_wordpress] puts the path in flight, runs
    the attempt under the catch-all, and the [finally] takes it out. *)
Lemma post_admitted ev p w :
  is_tracked p w = false ->
  snd (post_to_wordpress ev p w) =
  (let w1 := add_log (INFO, MNewFile) (set_processing (processing w ∪ {[p]}) w) in
   let w2 := snd (try_except (attempt ev p) (fun _ => log ERROR MUnexpected) w1) in
   set_processing (processing w2 ∖ {[p]}) w2).
Proof.
  intros Ht. unfold post_to_wordpress, bind, gets. rewrite Ht.
  unfold add_processing, modify. simpl. by rewrite try_finally_world.
Qed.

Lemma is_tracked_false p w : is_tracked p w = false <-> (p ∉ processed_files w) /\ (p ∉ processing w).
Proof.
  unfold is_tracked. rewrite orb_false_iff, !bool_decide_eq_false. tauto.
Qed.

(** ** C2: a failed attempt releases the path for a retry.
    Every failure the claim lists (read error, empty content, render
    exception, transport error, non-201 status) ends the attempt without
    a 201 from the server, i.e. with [created] unchanged. For any such
    attempt on an admitted path, the path ends neither in flight nor
    completed, so [post_to_wordpress]'s admission test (line 177)
    passes again. *)
Theorem failed_attempt_releases_path ev p w :
  is_tracked p w = false ->
  created (snd (post_to_wordpress ev p w)) = created w ->
  (p ∉ processing (snd (post_to_wordpress ev p w))) /\
  (p ∉ processed_files (snd (post_to_wordpress ev p w))) /\
  is_tracked p (snd (post_to_wordpress ev p w)) = false.
Proof.
  intros Ht Hc. pose proof Ht as Ht'. apply is_tracked_false in Ht' as [Hpf _].
  rewrite post_admitted in Hc |- * by exact Ht. cbv zeta in *.
  set (w1 := add_log (INFO, MNewFile) (set_processing (processing w ∪ {[p]}) w)) in *.
  assert (Q : quiet w1 (snd (try_except (attempt ev p) (fun _ => log ERROR MUnexpected) w1))).
  { apply pres_try_except; [exact quiet_trans | apply attempt_quiet |].
    intros e w0. apply quiet_same; reflexivity. }
  set (w2 := snd (try_except (attempt ev p) (fun _ => log ERROR MUnexpected) w1)) in *.
  destruct Q as [_ Qp]. simpl in Hc.
  assert (processed_files w2 = processed_files w) as Hp by (apply Qp; exact Hc).
  assert (p ∉ processing (set_processing (processing w2 ∖ {[p]}) w2)) as Hout
    by (simpl; set_solver).
  assert (p ∉ processed_files (set_processing (processing w2 ∖ {[p]}) w2)) as Hout'
    by (simpl; rewrite Hp; exact Hpf).
  split; [exact Hout|]. split; [exact Hout'|]. by apply is_tracked_false.
Qed.

(** ** C1: admission *)

(** A tracked path (in flight or completed) is turned away untouched. *)
Lemma post_rejects_tracked ev p w :
  is_tracked p w = true -> post_to_wordpress ev p w = (Ok tt, add_log (DEBUG, MAlreadyHandled) w).
Proof. intros Ht. unfold post_to_wordpress, bind, gets. by rewrite Ht. Qed.

Lemma post_grows ev p : preserves grows (post_to_wordpress ev p).
Proof.
  unfold post_to_wordpress. unfold_prims.
  repeat (first [ intros w; apply grows_of_quiet; revert w; apply attempt_quiet
                | pres_step | apply grows_same; [reflexivity | simpl; set_solver] ]).
Qed.

(** Completion is permanent: a completed path stays completed, so every
    later call for it is rejected. *)
Lemma completed_stays_rejected ev ev' p q w :
  q ∈ processed_files w ->
  post_to_wordpress ev' q (snd (post_to_wordpress ev p w)) =
  (Ok tt, add_log (DEBUG, MAlreadyHandled) (snd (post_to_wordpress ev p w))).
Proof.
  intros Hq. apply post_rejects_tracked. unfold is_tracked.
  destruct (post_grows ev p w) as [_ Hs].
  rewrite bool_decide_eq_true_2; [done | set_solver].
Qed.

(** C1 (code bug): the server answers 201, then [os.makedirs] raises.
    The handler at line 332 formats [dest], which is not bound yet, so
    [UnboundLocalError] escapes to the catch-all and line 335 never
    runs: the path is not completed, the file is still in the watch
    folder, and the next call for it publishes it a second time. *)
Theorem published_path_readmitted_after_makedirs_failure :
  let w1 := snd (post_to_wordpress makedirs_fails_env watch_path (sample_world "Hello")) in
  let w2 := snd (post_to_wordpress makedirs_fails_env watch_path w1) in
  length (created w1) = 1%nat /\ is_tracked watch_path w1 = false /\
  length (created w2) = 2%nat.
Proof. vm_compute. repeat split; reflexivity. Qed.

(** ** C3: archival failure after a 201 *)

Lemma move_raises_oserror ev src dst w e :
  (forall s d e', e_move_error ev s d = Some e' -> is_oserror e' = true) ->
  fst (move ev src dst w) = Raise e -> is_oserror e = true.
Proof.
  intros Hm. unfold move. destruct (e_move_error ev src dst) eqn:E.
  - simpl. intros [= <-]. eapply Hm; eauto.
  - destruct (fs w !! src); simpl; intros [=]; subst; reflexivity.
Qed.

Lemma move_cases ev src dst w :
  (forall s d e', e_move_error ev s d = Some e' -> is_oserror e' = true) ->
  (exists w', move ev src dst w = (Ok tt, w')) \/
  (exists e w', move ev src dst w = (Raise e, w') /\ is_oserror e = true).
Proof.
  intros Hm. pose proof (move_raises_oserror ev src dst w) as Ho.
  destruct (move ev src dst w) as [[[]|e] w'] eqn:E; [left; eauto | right].
  exists e, w'. split; [done | apply Ho; [exact Hm | reflexivity]].
Qed.

(** Once the archive folder exists, a failed backup rename or move
    (any OS error) still marks the path completed. *)
Lemma archive_completes_when_folder_ok ev p w :
  e_makedirs_error ev = None ->
  (forall s d e, e_move_error ev s d = Some e -> is_oserror e = true) ->
  fst (archive ev p w) = Ok tt /\ p ∈ processed_files (snd (archive ev p w)).
Proof.
  intros Hd Hm. unfold archive. rewrite Hd. unfold try_except, bind, file_exists, gets, ret.
  unfold_prims. unfold modify. simpl.
  destruct (fs w !! path_join (e_published_folder ev) (path_name p)); cbv beta iota;
  repeat (lazymatch goal with
          | |- context [move ev ?s ?d ?w0] =>
              let E := fresh "E" in let Ho := fresh "Ho" in
              destruct (move_cases ev s d w0 Hm) as [[? E]|[? [? [E Ho]]]];
              rewrite E; simpl; try rewrite Ho; simpl
          end);
  split; try reflexivity; set_solver.
Qed.

(** C3 (code bug): when the archive step fails at [os.makedirs], the
    published path is not marked completed; the discrepancy handler
    itself fails and only the catch-all's message is logged. *)
Theorem makedirs_failure_leaves_path_uncompleted :
  let w1 := snd (post_to_wordpress makedirs_fails_env watch_path (sample_world "Hello")) in
  length (created w1) = 1%nat /\
  bool_decide (watch_path ∈ processed_files w1) = false /\
  In (ERROR, MUnexpected) (logs w1) /\ ~ In (ERROR, MMoveFailed) (logs w1).
Proof.
  vm_compute. split; [reflexivity|]. split; [reflexivity|].
  split; [tauto | intuition congruence].
Qed.

Lemma failed_attempt_releases_path_witness :
  is_tracked watch_path (sample_world "Hello") = false /\
  created (snd (post_to_wordpress server_error_env watch_path (sample_world "Hello")))
    = created (sample_world "Hello") /\
  (watch_path ∉ processing (snd (post_to_wordpress server_error_env watch_path (sample_world "Hello")))) /\
  (watch_path ∉ processed_files (snd (post_to_wordpress server_error_env watch_path (sample_world "Hello")))) /\
  is_tracked watch_path (snd (post_to_wordpress server_error_env watch_path (sample_world "Hello"))) = false.
Proof.
  split; [reflexivity|]. split; [vm_compute; reflexivity|].
  apply failed_attempt_releases_path; vm_compute; reflexivity.
Defined.

(** ** C4: frontmatter parsing *)

Lemma parse_frontmatter_no_match load content :
  fm_match content = None -> parse_frontmatter load content = Ok (PDict [], content).
Proof. intros H. unfold parse_frontmatter. by rewrite H. Qed.

(** The pattern is anchored: text not starting with [---] never has
    frontmatter. *)
Lemma fm_match_anchored content :
  py_startswith content "---" = false -> fm_match content = None.
Proof.
  unfold py_startswith, fm_match, fm_match_l.
  change (list_ascii_of_string "---") with dashes.
  destruct (strip_prefix_l dashes (list_ascii_of_string content)); intros H; [discriminate | reflexivity].
Qed.

Lemma parse_frontmatter_yaml_error load content g1 g2 :
  fm_match content = Some (g1, g2) -> load g1 = Raise YAMLError ->
  parse_frontmatter load content = Ok (PDict [], content).
Proof. intros H1 H2. unfold parse_frontmatter. by rewrite H1, H2. Qed.

Example fm_mid_document :
  fm_match "intro
---
title: A
---
body" = None.
Proof. reflexivity. Qed.

(** C4 (code bug): PyYAML resolves [2026-02-30] as a timestamp and
    [datetime.date(2026, 2, 30)] raises [ValueError], which is not a
    [yaml.YAMLError]; [parse_frontmatter] then raises instead of
    degrading to the empty mapping and the full text. *)
Theorem invalid_date_block_raises (load : string -> res pyval) :
  load "date: 2026-02-30" = Raise ValueError ->
  parse_frontmatter load bad_date_doc = Raise ValueError.
Proof.
  intros H. unfold parse_frontmatter.
  replace (fm_match bad_date_doc) with (Some ("date: 2026-02-30", "body
")) by reflexivity.
  by rewrite H.
Qed.

Lemma invalid_date_block_raises_witness :
  (fun _ : string => @Raise pyval ValueError) "date: 2026-02-30" = Raise ValueError /\
  parse_frontmatter (fun _ => Raise ValueError) bad_date_doc = Raise ValueError.
Proof.
  split; [reflexivity|]. apply (invalid_date_block_raises (fun _ => Raise ValueError)). reflexivity.
Defined.


(** ** C5: date resolution *)

(** C5 (code_bug). An unquoted [date: 2026-01-15] reaches the date resolution
    as a [datetime.date], which is neither a [datetime] nor a [str]: the
    date is dropped with no warning and the world untouched, while the same
    text quoted resolves to ["2026-01-15T00:00:00"]. End to end, the post
    is created without a date and no warning is logged. *)
Theorem unquoted_date_dropped_silently (w : world) :
  resolve_date (PDict [("date", PDate 2026 1 15)]) w = (Ok None, w)
  /\ resolve_date (PDict [("date", PStr "2026-01-15")]) w = (Ok (Some "2026-01-15T00:00:00"), w)
  /\ (let w' := snd (post_to_wordpress unquoted_date_env watch_path
                       (sample_world unquoted_date_doc)) in
      map pd_date (created w') = [None] /\ existsb is_warning (logs w') = false).
Proof.
  split; [reflexivity|]. split; [vm_compute; reflexivity|]. vm_compute. split; reflexivity.
Qed.

(** ** C6: title resolution *)

(** C6 (code_bug). The heading is removed by [body.replace(line + '\n', '', 1)].
    When the heading is the last line and no newline follows it, nothing
    matches: the title is found but the heading stays in the body and is
    posted (with a newline after it the line is removed). When the same text occurs earlier inside another line, that
    earlier occurrence is cut instead and the heading line stays. *)
Theorem heading_without_newline_kept (w : world) :
  resolve_title (PDict []) "# Hello World
rest" "note" w = (Ok (PStr "Hello World", "rest"), w)
  /\   resolve_title (PDict []) "# Hello World" "note" w = (Ok (PStr "Hello World", "# Hello World"), w)
  /\ resolve_title (PDict []) "x# A
# A
" "note" w = (Ok (PStr "A", "x# A
"), w)
  /\ (let w' := snd (post_to_wordpress ok_env watch_path (sample_world "# Hello World")) in
      map (fun pd => (pd_title pd, pd_content pd)) (created w') = [(PStr "Hello World", "# Hello World")]).
Proof.
  split; [vm_compute; reflexivity|]. split; [vm_compute; reflexivity|].
  split; [vm_compute; reflexivity|]. vm_compute. reflexivity.
Qed.

(** ** C7: readiness *)

(** C7 (code_bug). When the file never settles, [wait_for_file_ready]
    polls ten times, sleeping after each, and reports not ready; [on_created]
    then logs the timeout, but [on_modified], the other caller, returns
    without logging anything: the timeout goes unreported. *)
Theorem modified_timeout_not_logged :
  let w := sample_world "Hello" in
  wait_for_file_ready growing_polls 10 w = (Ok false, Nat.iter 10 add_sleep w)
  /\ logs (snd (on_created growing_env watch_event w)) = [(WARNING, MReadyTimeout)]
  /\ snd (on_modified growing_env watch_event w) = Nat.iter 10 add_sleep w.
Proof. vm_compute. repeat split; reflexivity. Qed.

(** ** C8: archiving on a name collision *)

(** C8 (code_bug). The backup name [<stem>_<time.time()><suffix>] is not
    checked, and [shutil.move] replaces an existing file: when a backup
    of that name is already in the archive it is overwritten. After
    publishing [note.md] into [crowded_archive], the new file and the
    previous [note.md] are kept, but the older backup's content is gone. *)
Theorem backup_overwrites_archived_file :
  let w' := snd (post_to_wordpress ok_env watch_path (world_with crowded_archive)) in
  length (created w') = 1%nat
  /\ fs w' !! "/published/note.md" = Some "new"
  /\ fs w' !! "/published/note_1760000000.md" = Some "old"
  /\ has_content "older" (fs w') = false.
Proof. vm_compute. repeat split; reflexivity. Qed.

(** ** C9: category resolution *)

Lemma find_category_spec name cats cs :
  Forall2 category_has cats cs ->
  find_category (py_lower name) cats = Ok (spec_category_match name cs).
Proof.
  induction 1 as [|c [n i] cats cs [Hn Hi] _ IH]; [reflexivity|].
  simpl in *. rewrite Hn. simpl. unfold spec_category_match in *. simpl.
  destruct (String.eqb (py_lower n) (py_lower name)); [rewrite Hi; reflexivity | exact IH].
Qed.

Lemma get_category_id_falsy ev name w :
  truthy name = false -> get_category_id ev name w = (Ok None, w).
Proof. intros H. unfold get_category_id. rewrite H. reflexivity. Qed.

Lemma get_category_id_total ev name w : exists r, fst (get_category_id ev name w) = Ok r.
Proof.
  unfold get_category_id. destruct (truthy name); simpl; [|eauto].
  unfold try_except, bind, modify.
  destruct (http_raise _ _ _) as [[r|e] w'] eqn:E; simpl; [eauto|].
  unfold log, bind, modify, ret. destruct (is_request_exc e); simpl; eauto.
Qed.

Lemma get_category_id_fails ev name w :
  category_lookup_fails ev -> fst (get_category_id ev name w) = Ok None.
Proof.
  unfold category_lookup_fails, get_category_id. intros H.
  destruct (truthy name); [|reflexivity]. simpl.
  destruct (e_categories ev) as [| | |st js]; try reflexivity.
  simpl. apply Z.eqb_neq in H. rewrite H. reflexivity.
Qed.

(** Calls recorded only grow by calls that carry no categories. *)
Definition keeps_calls (w w' : world) : Prop :=
  Forall no_categories (http_calls w) -> Forall no_categories (http_calls w').

Lemma keeps_calls_refl w : keeps_calls w w.
Proof. by intros H. Qed.

Lemma keeps_calls_trans w1 w2 w3 : keeps_calls w1 w2 -> keeps_calls w2 w3 -> keeps_calls w1 w3.
Proof. unfold keeps_calls. auto. Qed.

Lemma keeps_calls_same w w' : http_calls w' = http_calls w -> keeps_calls w w'.
Proof. intros E H. by rewrite E. Qed.

Lemma keeps_calls_add c w : no_categories c -> keeps_calls w (add_call c w).
Proof. intros Hc H. simpl. apply Forall_app. auto. Qed.

Lemma pres_bind_returns {A B} (R : world -> world -> Prop)
    (R_trans : forall w1 w2 w3, R w1 w2 -> R w2 w3 -> R w1 w3)
    (m : M A) (k : A -> M B) (Q : A -> Prop) :
  preserves R m -> (forall w a, fst (m w) = Ok a -> Q a) ->
  (forall a, Q a -> preserves R (k a)) -> preserves R (bind m k).
Proof.
  intros Hm HQ Hk w. unfold bind. specialize (Hm w). specialize (HQ w).
  destruct (m w) as [[a|e] w'] eqn:E; simpl in *; [|exact Hm].
  eapply R_trans; [exact Hm | apply Hk, HQ; reflexivity].
Qed.

Ltac calls_facts := first [ exact keeps_calls_refl | exact keeps_calls_trans ].

Ltac pres_calls_step :=
  match goal with
  | |- preserves _ (bind _ _) => apply pres_bind; [calls_facts | | intro]
  | |- preserves _ (try_except _ _) => apply pres_try_except; [calls_facts | | intro]
  | |- preserves _ (try_finally _ _) => apply pres_try_finally; [calls_facts | |]
  | |- preserves _ (ret _) => apply pres_ret; calls_facts
  | |- preserves _ (raise _) => apply pres_raise; calls_facts
  | |- preserves _ (lift _) => apply pres_lift; calls_facts
  | |- preserves _ (gets _) => apply pres_gets; calls_facts
  | |- preserves _ (modify _) => apply pres_modify; intro
  | |- preserves _ (match ?x with _ => _ end) => destruct x
  end.

Lemma move_calls ev src dst : preserves keeps_calls (move ev src dst).
Proof.
  intros w. unfold move. destruct (e_move_error ev src dst); [apply keeps_calls_refl|].
  destruct (fs w !! src); [apply keeps_calls_same; reflexivity | apply keeps_calls_refl].
Qed.

Ltac pres_calls :=
  unfold_prims;
  repeat (first [ apply move_calls
                | pres_calls_step
                | apply keeps_calls_same; reflexivity
                | apply keeps_calls_add; exact I ]).

Lemma read_file_calls ev p : preserves keeps_calls (read_file ev p).
Proof.
  intros w. unfold read_file.
  destruct (e_read_error ev) as [e|]; [|destruct (fs w !! p)]; try apply keeps_calls_refl;
    try (destruct e); apply keeps_calls_same; reflexivity.
Qed.

Lemma archive_calls ev p : preserves keeps_calls (archive ev p).
Proof. unfold archive. pres_calls. Qed.

Lemma get_category_id_calls ev v : preserves keeps_calls (get_category_id ev v).
Proof. unfold get_category_id, http_raise. pres_calls. Qed.

Lemma resolve_title_calls md body stem : preserves keeps_calls (resolve_title md body stem).
Proof. unfold resolve_title. pres_calls. Qed.

Lemma resolve_status_calls md : preserves keeps_calls (resolve_status md).
Proof. unfold resolve_status. pres_calls. Qed.

Lemma resolve_date_calls md : preserves keeps_calls (resolve_date md).
Proof. unfold resolve_date, date_str_of. pres_calls. Qed.

Lemma submit_calls ev p pd st cn ci ds :
  pd_categories pd = None -> preserves keeps_calls (submit ev p pd st cn ci ds).
Proof.
  intros Hpd. unfold submit. destruct (negb (post_data_json_ok pd)); [pres_calls|]. apply pres_bind; [exact keeps_calls_trans | |].
  { apply pres_modify. intro. apply keeps_calls_add. exact Hpd. }
  intros _. pres_calls. all: apply archive_calls.
Qed.

Lemma attempt_calls ev p :
  category_lookup_fails ev -> preserves keeps_calls (attempt ev p).
Proof.
  intros Hf. unfold attempt. unfold_prims.
  apply pres_bind; [exact keeps_calls_trans | apply read_file_calls | intros [content|]];
    [|pres_calls].
  destruct (py_strip content =? "")%string; [pres_calls|].
  apply pres_bind; [exact keeps_calls_trans | pres_calls | intros [md body0]].
  apply pres_bind; [exact keeps_calls_trans | apply resolve_title_calls | intros [title body]].
  apply pres_bind; [exact keeps_calls_trans | apply resolve_status_calls | intros status].
  apply pres_bind; [exact keeps_calls_trans | apply resolve_date_calls | intros date_str].
  apply pres_bind; [exact keeps_calls_trans | pres_calls | intros category_name].
  apply (pres_bind_returns _ keeps_calls_trans _ _ (fun a => a = None));
    [ apply get_category_id_calls
    | intros w0 a0 Ha0; rewrite get_category_id_fails in Ha0 by exact Hf; congruence
    | intros a0 ->].
  apply pres_bind; [exact keeps_calls_trans | pres_calls | intros _].
  destruct (e_render ev body); [apply submit_calls; reflexivity | pres_calls].
Qed.

Lemma post_calls ev p :
  category_lookup_fails ev -> preserves keeps_calls (post_to_wordpress ev p).
Proof.
  intros Hf. unfold post_to_wordpress. pres_calls. apply attempt_calls, Hf.
Qed.

(** C9. Category resolution: a falsy name returns no match without any
    request; otherwise one category request is made and, on a 200 list of
    categories, the result is the identifier of the first whose name
    equals the query ignoring case ([spec_category_match]); the lookup
    never raises; and when the request fails (network error or non-200)
    it yields no match and every post the attempt sends carries no
    categories. *)
Theorem category_resolution (ev : env) :
  (forall name w, truthy name = false -> get_category_id ev name w = (Ok None, w))
  /\ (forall name w, exists r, fst (get_category_id ev name w) = Ok r)
  /\ (forall s cats cs w,
        s <> "" -> e_categories ev = HResp 200 (Ok (PList cats)) -> Forall2 category_has cats cs ->
        get_category_id ev (PStr s) w = (Ok (spec_category_match s cs), add_call GetCategories w))
  /\ (category_lookup_fails ev ->
        (forall name w, fst (get_category_id ev name w) = Ok None)
        /\ (forall p w, Forall no_categories (http_calls w) ->
              Forall no_categories (http_calls (snd (post_to_wordpress ev p w))))).
Proof.
  split; [exact (get_category_id_falsy ev)|].
  split; [exact (get_category_id_total ev)|].
  split.
  - intros s cats cs w Hs Hc Hcs. unfold get_category_id.
    assert (truthy (PStr s) = true) as Ht.
    { simpl. destruct s; [congruence | reflexivity]. }
    rewrite Ht. simpl. rewrite Hc. simpl.
    unfold try_except, bind, modify, lift. simpl.
    rewrite (find_category_spec s cats cs Hcs). reflexivity.
  - intros Hf. split.
    + intros name w. apply get_category_id_fails, Hf.
    + intros p w. apply (post_calls ev p Hf w).
Qed.

Lemma category_resolution_witness :
  get_category_id tech_env (PStr "TECH") (sample_world "Hello")
    = (Ok (Some (PInt 3)), add_call GetCategories (sample_world "Hello"))
  /\ Forall no_categories
       (http_calls (snd (post_to_wordpress category_timeout_env watch_path (sample_world "---
category: Tech
---
Hello
")))).
Proof.
  split.
  - apply (proj1 (proj2 (proj2 (category_resolution tech_env))) "TECH"
             [PDict [("id", PInt 3); ("name", PStr "Tech"); ("count", PInt 7)]] [("Tech", PInt 3)]).
    + discriminate.
    + reflexivity.
    + constructor; [split; reflexivity | constructor].
  - apply (proj2 (proj2 (proj2 (proj2 (category_resolution category_timeout_env))) I)).
    constructor.
Defined.

(** ** C10: metadata values of the wrong type *)
























(* ================================================================= *)
(** * Further properties of the code *)

(** ** Readiness polling *)

(** What a readiness wait leaves of the world: only DEBUG lines are
    logged and only the sleep count changes otherwise. *)
Definition wfr_frame (w w' : world) : Prop :=
  processing w' = processing w /\ processed_files w' = processed_files w /\ fs w' = fs w
  /\ http_calls w' = http_calls w /\ created w' = created w
  /\ exists l, logs w' = logs w ++ l /\ Forall (fun e => fst e = DEBUG) l.

Lemma wfr_frame_refl w : wfr_frame w w.
Proof. repeat split; try reflexivity. exists []. rewrite app_nil_r. auto. Qed.

Lemma wfr_frame_sleep w w' : wfr_frame (add_sleep w) w' -> wfr_frame w w'.
Proof. intros (H1 & H2 & H3 & H4 & H5 & l & H6 & H7). repeat split; auto. exists l. auto. Qed.

Lemma wfr_frame_debug m w w' : wfr_frame (add_log (DEBUG, m) w) w' -> wfr_frame w w'.
Proof.
  intros (H1 & H2 & H3 & H4 & H5 & l & H6 & H7). repeat split; auto.
  exists ((DEBUG, m) :: l). simpl in H6. rewrite <- app_assoc in H6. split; [exact H6|].
  constructor; [reflexivity | exact H7].
Qed.

Lemma find_seq_ge f a n k : find f (seq a n) = Some k -> (a <= k)%nat.
Proof.
  intros H. apply find_some in H as [H _]. apply in_seq in H. lia.
Qed.

Lemma wfr_loop_spec polls n : forall a w,
  let r := find (ready_at polls) (seq a n) in
  fst (wfr_loop polls a n (last_size_before polls a) w) = Ok (found r)
  /\ slept (snd (wfr_loop polls a n (last_size_before polls a) w))
     = (slept w + match r with Some k => S k - a | None => n end)%nat
  /\ wfr_frame w (snd (wfr_loop polls a n (last_size_before polls a) w)).
Proof.
  induction n as [|n IH]; intros a w; simpl.
  - split; [reflexivity|]. split; [lia | apply wfr_frame_refl].
  - destruct (polls a) as [|s|] eqn:Ep; unfold sleep, log, bind, modify; simpl.
    + assert (ready_at polls a = false) as Hr by (unfold ready_at; rewrite Ep; reflexivity).
      rewrite Hr.
      assert (last_size_before polls a = last_size_before polls (S a)) as Hl
        by (simpl; rewrite Ep; reflexivity).
      rewrite Hl. destruct (IH (S a) (add_sleep w)) as (R1 & R2 & R3).
      split; [exact R1|]. split; [|exact (wfr_frame_sleep _ _ R3)].
      rewrite R2. simpl. destruct (find _ (seq (S a) n)) eqn:F; [|lia].
      apply find_seq_ge in F. lia.
    + assert (ready_at polls a = (s =? last_size_before polls a) && (0 <? s)) as Hr
        by (unfold ready_at; rewrite Ep; reflexivity).
      rewrite Hr.
      destruct ((s =? last_size_before polls a) && (0 <? s)) eqn:Er; simpl.
      * split; [reflexivity|]. split; [lia|]. apply wfr_frame_sleep, wfr_frame_refl.
      * assert (s = last_size_before polls (S a)) as Hl by (simpl; rewrite Ep; reflexivity).
        rewrite Hl. destruct (IH (S a) (add_sleep w)) as (R1 & R2 & R3).
        split; [exact R1|]. split; [|exact (wfr_frame_sleep _ _ R3)].
        rewrite R2. simpl. destruct (find _ (seq (S a) n)) eqn:F; [|lia].
        apply find_seq_ge in F. lia.
    + assert (ready_at polls a = false) as Hr by (unfold ready_at; rewrite Ep; reflexivity).
      rewrite Hr.
      assert (last_size_before polls a = last_size_before polls (S a)) as Hl
        by (simpl; rewrite Ep; reflexivity).
      rewrite Hl. destruct (IH (S a) (add_sleep (add_log (DEBUG, MFileCheckError) w))) as (R1 & R2 & R3).
      split; [exact R1|]. split; [|exact (wfr_frame_debug _ _ _ (wfr_frame_sleep _ _ R3))].
      rewrite R2. simpl. destruct (find _ (seq (S a) n)) eqn:F; [|lia].
      apply find_seq_ge in F. lia.
Qed.

(** X1. [wait_for_file_ready] reports ready exactly when some poll
    among the first [max_retries] sees a positive size equal to the
    size seen by the latest earlier poll that saw a size ([ready_at]);
    it stops at the first such poll [k], having slept [k + 1] times,
    and otherwise sleeps after every one of the [max_retries] polls.
    It never raises. *)
Theorem wait_for_file_ready_result polls max_retries w :
  fst (wait_for_file_ready polls max_retries w) = Ok (found (first_ready polls max_retries))
  /\ slept (snd (wait_for_file_ready polls max_retries w))
     = (slept w + match first_ready polls max_retries with Some k => S k | None => max_retries end)%nat.
Proof.
  destruct (wfr_loop_spec polls max_retries 0 w) as (R1 & R2 & _).
  simpl last_size_before in R1, R2.
  unfold wait_for_file_ready, first_ready. split; [exact R1|]. rewrite R2.
  destruct (find _ _); lia.
Qed.

(** X2. Waiting for readiness changes nothing but the sleep count and
    the log, and logs only DEBUG lines: no file, set, request or post
    is touched. *)
Theorem wait_for_file_ready_frame polls max_retries w :
  wfr_frame w (snd (wait_for_file_ready polls max_retries w)).
Proof. exact (proj2 (proj2 (wfr_loop_spec polls max_retries 0 w))). Qed.

(** ** File events *)

Lemma wfr_result polls n w :
  fst (wait_for_file_ready polls n w) = Ok (found (first_ready polls n)).
Proof. exact (proj1 (wfr_loop_spec polls n 0 w)). Qed.

Lemma wfr_pair polls n w :
  wait_for_file_ready polls n w = (Ok (found (first_ready polls n)), snd (wait_for_file_ready polls n w)).
Proof.
  pose proof (wfr_result polls n w) as H. destruct (wait_for_file_ready polls n w). simpl in *. by subst.
Qed.



(** ** The in-flight set *)

(** [w'] differs from [w] in flight at most at [p]. *)
Definition flight_at (p : string) (w w' : world) : Prop :=
  forall q, q <> p -> (q ∈ processing w' <-> q ∈ processing w).

Lemma flight_at_refl p w : flight_at p w w.
Proof. intros q _. tauto. Qed.

Lemma flight_at_trans p w1 w2 w3 : flight_at p w1 w2 -> flight_at p w2 w3 -> flight_at p w1 w3.
Proof. intros H1 H2 q Hq. rewrite (H2 q Hq). exact (H1 q Hq). Qed.

Ltac flight_facts := first [ exact (flight_at_refl _) | exact (flight_at_trans _) ].

Ltac flight_step :=
  match goal with
  | |- preserves _ (bind _ _) => apply pres_bind; [flight_facts | | intro]
  | |- preserves _ (try_except _ _) => apply pres_try_except; [flight_facts | | intro]
  | |- preserves _ (try_finally _ _) => apply pres_try_finally; [flight_facts | |]
  | |- preserves _ (ret _) => apply pres_ret; flight_facts
  | |- preserves _ (raise _) => apply pres_raise; flight_facts
  | |- preserves _ (lift _) => apply pres_lift; flight_facts
  | |- preserves _ (gets _) => apply pres_gets; flight_facts
  | |- preserves _ (modify _) => apply pres_modify; intro
  | |- preserves _ (match ?x with _ => _ end) => destruct x
  end.

Lemma flight_same p w w' : processing w' = processing w -> flight_at p w w'.
Proof. intros E q _. by rewrite E. Qed.

Lemma flight_discard p w : flight_at p w (set_processing (processing w ∖ {[p]}) w).
Proof. intros q Hq. simpl. set_solver. Qed.

Lemma move_flight ev p src dst : preserves (flight_at p) (move ev src dst).
Proof.
  intros w. unfold move. destruct (e_move_error ev src dst); [apply flight_at_refl|].
  destruct (fs w !! src); [apply flight_same; reflexivity | apply flight_at_refl].
Qed.

Ltac pres_flight :=
  unfold_prims;
  repeat (first [ apply move_flight
                | flight_step
                | apply flight_discard
                | apply flight_same; reflexivity ]).

Lemma read_file_flight ev p : preserves (flight_at p) (read_file ev p).
Proof.
  intros w. unfold read_file.
  destruct (e_read_error ev) as [e|]; [|destruct (fs w !! p)]; try apply flight_at_refl;
    try (destruct e); unfold_prims; unfold bind, modify, ret; simpl;
    intros q Hq; simpl; set_solver.
Qed.

Lemma attempt_flight ev p : preserves (flight_at p) (attempt ev p).
Proof.
  unfold attempt, submit, archive, get_category_id, http_raise,
    resolve_title, resolve_status, resolve_date, date_str_of.
  pres_flight; apply read_file_flight.
Qed.

(** [post_to_wordpress] puts the path in flight only for its own run. *)
Lemma post_processing ev p w :
  processing (snd (post_to_wordpress ev p w)) = processing w.
Proof.
  destruct (is_tracked p w) eqn:Ht.
  - rewrite post_rejects_tracked by exact Ht. reflexivity.
  - pose proof Ht as Ht'. apply is_tracked_false in Ht' as [_ Hpr].
    rewrite post_admitted by exact Ht. cbv zeta.
    set (w1 := add_log (INFO, MNewFile) (set_processing (processing w ∪ {[p]}) w)).
    assert (F : flight_at p w1 (snd (try_except (attempt ev p) (fun _ => log ERROR MUnexpected) w1))).
    { apply pres_try_except; [exact (flight_at_trans p) | apply attempt_flight |].
      intros e0 w0. apply flight_same. reflexivity. }
    set (w2 := snd (try_except (attempt ev p) (fun _ => log ERROR MUnexpected) w1)) in *.
    simpl. apply leibniz_equiv, set_equiv. intros q. destruct (decide (q = p)) as [->|Hq].
    + set_solver.
    + rewrite elem_of_difference, (F q Hq). simpl. set_solver.
Qed.

(** ** How many requests an attempt makes *)

Definition is_category_call (c : http_call) : bool :=
  match c with GetCategories => true | CreatePost _ => false end.

Definition count_category_calls (l : list http_call) : nat := length (filter is_category_call l).
Definition count_post_calls (l : list http_call) : nat :=
  length (filter (fun c => negb (is_category_call c)) l).

(** From [w] to [w'] at most [a] category requests and [b] post
    requests are recorded, and earlier calls are kept. *)
Definition within (a b : nat) (w w' : world) : Prop :=
  exists l, http_calls w' = http_calls w ++ l
            /\ (count_category_calls l <= a)%nat /\ (count_post_calls l <= b)%nat.

Lemma count_app l1 l2 :
  count_category_calls (l1 ++ l2) = (count_category_calls l1 + count_category_calls l2)%nat
  /\ count_post_calls (l1 ++ l2) = (count_post_calls l1 + count_post_calls l2)%nat.
Proof. unfold count_category_calls, count_post_calls. rewrite !filter_app, !length_app. done. Qed.

Lemma within_same a b w w' : http_calls w' = http_calls w -> within a b w w'.
Proof. intros E. exists []. rewrite app_nil_r. split; [exact E|]. unfold count_category_calls, count_post_calls. simpl. lia. Qed.

Lemma within_refl a b w : within a b w w.
Proof. by apply within_same. Qed.

Lemma within_trans' a b c d a' b' w1 w2 w3 :
  (a + c <= a')%nat -> (b + d <= b')%nat ->
  within a b w1 w2 -> within c d w2 w3 -> within a' b' w1 w3.
Proof.
  intros Ha Hb (l1 & E1 & C1 & P1) (l2 & E2 & C2 & P2). exists (l1 ++ l2).
  destruct (count_app l1 l2) as [Cc Cp]. rewrite Cc, Cp.
  split; [rewrite E2, E1, app_assoc; reflexivity | lia].
Qed.

Lemma within_trans a b w1 w2 w3 : within a b w1 w2 -> within 0 0 w2 w3 -> within a b w1 w3.
Proof. apply within_trans'; lia. Qed.

Lemma within00_trans w1 w2 w3 : within 0 0 w1 w2 -> within 0 0 w2 w3 -> within 0 0 w1 w3.
Proof. apply within_trans'; lia. Qed.

Lemma within_weaken a b a' b' w w' :
  (a <= a')%nat -> (b <= b')%nat -> within a b w w' -> within a' b' w w'.
Proof. intros Ha Hb (l & E & C & P). exists l. split; [exact E | lia]. Qed.

Lemma pres_bind_within {A B} a b c d a' b' (m : M A) (k : A -> M B) :
  (a + c <= a')%nat -> (b + d <= b')%nat ->
  preserves (within a b) m -> (forall x, preserves (within c d) (k x)) ->
  preserves (within a' b') (bind m k).
Proof.
  intros Ha Hb Hm Hk w. unfold bind. specialize (Hm w).
  destruct (m w) as [[x|e] w'] eqn:E; simpl in *.
  - eapply within_trans'; [exact Ha | exact Hb | exact Hm | apply Hk].
  - eapply within_weaken; [| | exact Hm]; lia.
Qed.

Lemma pres_try_except_within {A} a b c d a' b' (m : M A) (h : exn -> M A) :
  (a + c <= a')%nat -> (b + d <= b')%nat ->
  preserves (within a b) m -> (forall e, preserves (within c d) (h e)) ->
  preserves (within a' b') (try_except m h).
Proof.
  intros Ha Hb Hm Hh w. unfold try_except. specialize (Hm w).
  destruct (m w) as [[x|e] w'] eqn:E; simpl in *.
  - eapply within_weaken; [| | exact Hm]; lia.
  - eapply within_trans'; [exact Ha | exact Hb | exact Hm | apply Hh].
Qed.

Lemma pres_try_finally_within {A} a b a' b' (m : M A) (f : M unit) :
  (a <= a')%nat -> (b <= b')%nat ->
  preserves (within a b) m -> preserves (within 0 0) f -> preserves (within a' b') (try_finally m f).
Proof.
  intros Ha Hb Hm Hf w. unfold try_finally. specialize (Hm w).
  destruct (m w) as [r w'] eqn:E. specialize (Hf w').
  destruct (f w') as [[u|e] w''] eqn:F; simpl in *;
    (eapply within_trans'; [| | exact Hm | exact Hf]; lia).
Qed.

Lemma pres_within_weaken {A} a b a' b' (m : M A) :
  (a <= a')%nat -> (b <= b')%nat -> preserves (within a b) m -> preserves (within a' b') m.
Proof. intros Ha Hb H w. eapply within_weaken; [exact Ha | exact Hb | apply H]. Qed.

Ltac w00_facts := first [ exact (within_refl 0 0) | exact within00_trans ].

Ltac w00_step :=
  match goal with
  | |- preserves _ (bind _ _) => apply pres_bind; [w00_facts | | intro]
  | |- preserves _ (try_except _ _) => apply pres_try_except; [w00_facts | | intro]
  | |- preserves _ (try_finally _ _) => apply pres_try_finally; [w00_facts | |]
  | |- preserves _ (ret _) => apply pres_ret; w00_facts
  | |- preserves _ (raise _) => apply pres_raise; w00_facts
  | |- preserves _ (lift _) => apply pres_lift; w00_facts
  | |- preserves _ (gets _) => apply pres_gets; w00_facts
  | |- preserves _ (modify _) => apply pres_modify; intro
  | |- preserves _ (match ?x with _ => _ end) => destruct x
  end.

Lemma move_w00 ev src dst : preserves (within 0 0) (move ev src dst).
Proof.
  intros w. unfold move. destruct (e_move_error ev src dst); [apply within_refl|].
  destruct (fs w !! src); [apply within_same; reflexivity | apply within_refl].
Qed.

Ltac pres_w00 :=
  unfold_prims;
  repeat (first [ apply move_w00 | w00_step | apply within_same; reflexivity ]).

Lemma read_file_w00 ev p : preserves (within 0 0) (read_file ev p).
Proof.
  intros w. unfold read_file.
  destruct (e_read_error ev) as [e|]; [|destruct (fs w !! p)]; try apply within_refl;
    try (destruct e); apply within_same; reflexivity.
Qed.

Lemma resolve_w00 md body stem :
  preserves (within 0 0) (resolve_title md body stem) /\ preserves (within 0 0) (resolve_status md)
  /\ preserves (within 0 0) (resolve_date md).
Proof.
  unfold resolve_title, resolve_status, resolve_date, date_str_of. split; [|split]; pres_w00.
Qed.

Lemma get_category_id_within ev v : preserves (within 1 0) (get_category_id ev v).
Proof.
  unfold get_category_id. destruct (negb (truthy v)).
  - apply pres_ret. apply within_refl.
  - apply (pres_try_except_within 1 0 0 0); [lia | lia | |].
    + apply (pres_bind_within 1 0 0 0); [lia | lia | |].
      * intros w. exists [GetCategories]. split; [reflexivity|].
        unfold count_category_calls, count_post_calls. simpl. lia.
      * intros _. unfold http_raise. pres_w00.
    + intros e. pres_w00.
Qed.

Lemma submit_within ev p pd st cn ci ds : preserves (within 0 1) (submit ev p pd st cn ci ds).
Proof.
  unfold submit.
  destruct (negb (post_data_json_ok pd)); [apply (pres_within_weaken 0 0); [lia | lia | pres_w00]|].
  apply (pres_bind_within 0 1 0 0); [lia | lia | |].
  - intros w. exists [CreatePost pd]. split; [reflexivity|].
    unfold count_category_calls, count_post_calls. simpl. lia.
  - intros _. unfold archive. pres_w00.
Qed.

Lemma attempt_within ev p : preserves (within 1 1) (attempt ev p).
Proof.
  unfold attempt.
  apply (pres_bind_within 0 0 1 1); [lia | lia | apply read_file_w00 | intros [content|]];
    [|apply pres_ret; apply within_refl].
  destruct (py_strip content =? "")%string.
  { apply (pres_within_weaken 0 0); [lia | lia | pres_w00]. }
  apply (pres_bind_within 0 0 1 1); [lia | lia | pres_w00 | intros [md body0]].
  apply (pres_bind_within 0 0 1 1); [lia | lia | apply (proj1 (resolve_w00 _ _ _)) | intros [title body]].
  apply (pres_bind_within 0 0 1 1); [lia | lia | apply (proj1 (proj2 (resolve_w00 md body ""))) | intros status].
  apply (pres_bind_within 0 0 1 1); [lia | lia | apply (proj2 (proj2 (resolve_w00 md body ""))) | intros date_str].
  apply (pres_bind_within 0 0 1 1); [lia | lia | pres_w00 | intros category_name].
  apply (pres_bind_within 1 0 0 1); [lia | lia | apply get_category_id_within | intros category_id].
  apply (pres_bind_within 0 0 0 1); [lia | lia | pres_w00 | intros _].
  destruct (e_render ev body); [apply submit_within|].
  apply (pres_within_weaken 0 0); [lia | lia | pres_w00].
Qed.

Lemma post_within ev p : preserves (within 1 1) (post_to_wordpress ev p).
Proof.
  unfold post_to_wordpress.
  apply (pres_bind_within 0 0 1 1); [lia | lia | apply pres_gets, within_refl | intros []].
  - apply (pres_within_weaken 0 0); [lia | lia | pres_w00].
  - unfold_prims. apply (pres_bind_within 0 0 1 1); [lia | lia | pres_w00 | intros _].
    apply (pres_bind_within 0 0 1 1); [lia | lia | pres_w00 | intros _].
    apply (pres_try_finally_within 1 1); [lia | lia | | pres_w00].
    apply (pres_try_except_within 1 1 0 0); [lia | lia | apply attempt_within | intros e; pres_w00].
Qed.

Lemma post_all_within ev_at files :
  preserves (within (length files) (length files)) (post_all ev_at files).
Proof.
  revert ev_at. induction files as [|f rest IH]; intros ev_at; simpl.
  - apply pres_ret, within_refl.
  - apply (pres_bind_within 1 1 (length rest) (length rest)); [lia | lia | apply post_within | intros _; apply IH].
Qed.

(** ** [post_to_wordpress] and [process_existing_files] as callers see them *)

(** The catch-all at line 344 and the [finally] at line 347: no
    exception leaves [post_to_wordpress]. *)
Lemma post_ok ev p w : fst (post_to_wordpress ev p w) = Ok tt.
Proof.
  unfold post_to_wordpress, bind, gets. destruct (is_tracked p w); [reflexivity|].
  unfold add_processing, log, modify, discard_processing, try_finally, try_except. simpl.
  destruct (attempt ev p _) as [[[]|e] w1]; reflexivity.
Qed.

Lemma post_all_ok ev_at files w : fst (post_all ev_at files w) = Ok tt.
Proof.
  revert ev_at w. induction files as [|f rest IH]; intros ev_at w; [reflexivity|].
  simpl. unfold bind. pose proof (post_ok (ev_at 0%nat) f w) as E.
  destruct (post_to_wordpress (ev_at 0%nat) f w) as [r w1]. simpl in E. subst r. apply IH.
Qed.

Lemma post_all_processing ev_at files w :
  processing (snd (post_all ev_at files w)) = processing w.
Proof.
  revert ev_at w. induction files as [|f rest IH]; intros ev_at w; [reflexivity|].
  simpl. unfold bind. pose proof (post_ok (ev_at 0%nat) f w) as E.
  pose proof (post_processing (ev_at 0%nat) f w) as P.
  destruct (post_to_wordpress (ev_at 0%nat) f w) as [r w1]. simpl in E, P. subst r. rewrite IH. exact P.
Qed.

Lemma process_existing_files_world ev_at listing w :
  snd (process_existing_files ev_at listing w) =
  match listing with Ok files => snd (post_all ev_at files w) | Raise _ => w end.
Proof.
  destruct listing as [[|f rest]|e]; try reflexivity.
  unfold process_existing_files, try_except, bind, ret.
  pose proof (post_all_ok ev_at (f :: rest) w) as E.
  destruct (post_all ev_at (f :: rest) w) as [r w1]. simpl in E. by subst r.
Qed.

(** X5. One call of [post_to_wordpress], on any path and in any state:
    it returns normally (no exception escapes), it leaves the in-flight
    set exactly as it found it, and it adds at most one category request
    and at most one post request to the calls already made. *)
Theorem post_to_wordpress_one_call ev p w :
  fst (post_to_wordpress ev p w) = Ok tt /\
  processing (snd (post_to_wordpress ev p w)) = processing w /\
  within 1 1 w (snd (post_to_wordpress ev p w)).
Proof.
  split; [apply post_ok|]. split; [apply post_processing | apply post_within].
Qed.

(** X6. [process_existing_files]: when the directory scan raises, only
    the error line is logged and nothing else happens; an empty listing
    logs nothing; otherwise every listed file is handed to
    [post_to_wordpress] in order, each call meeting its own server
    answers, read errors, clock and moves, the count is logged, and the
    error line never appears (no exception comes back from the posts). *)
Theorem process_existing_files_outcome ev_at listing w :
  match listing with
  | Raise _ => process_existing_files ev_at listing w = (Ok [(ERROR, EError)], w)
  | Ok [] => process_existing_files ev_at listing w = (Ok [], w)
  | Ok files =>
      process_existing_files ev_at listing w =
      (Ok [(INFO, EFound (length files))], snd (post_all ev_at files w))
  end.
Proof.
  destruct listing as [[|f rest]|e]; try reflexivity.
  rewrite <- (process_existing_files_world ev_at (Ok (f :: rest)) w).
  unfold process_existing_files, try_except, bind, ret.
  pose proof (post_all_ok ev_at (f :: rest) w) as E.
  destruct (post_all ev_at (f :: rest) w) as [r w1]. simpl in E. by subst r.
Qed.

(** X7. [process_existing_files] leaves the in-flight set as it found it,
    and for a listing of [n] files makes at most [n] category requests
    and at most [n] post requests (none when the scan fails), whatever
    each post meets from the server, the disk and the clock. *)
Theorem process_existing_files_bounded ev_at listing w :
  processing (snd (process_existing_files ev_at listing w)) = processing w /\
  within (match listing with Ok files => length files | Raise _ => O end)
         (match listing with Ok files => length files | Raise _ => O end)
         w (snd (process_existing_files ev_at listing w)).
Proof.
  rewrite process_existing_files_world. destruct listing as [files|e].
  - split; [apply post_all_processing | apply post_all_within].
  - split; [reflexivity | apply within_refl].
Qed.

(** ** Files on disk move only after a 201 *)

(** [quiet], and moreover the files on disk are untouched unless a post
    was acknowledged. *)
Definition calm (w w' : world) : Prop :=
  quiet w w' /\ (created w' = created w -> fs w' = fs w).

Lemma grows_created_eq w1 w2 w3 :
  grows w1 w2 -> grows w2 w3 -> created w3 = created w1 ->
  created w2 = created w1 /\ created w3 = created w2.
Proof.
  intros [[l1 H1] _] [[l2 H2] _] E. rewrite H2, H1, <- app_assoc in E.
  assert (l1 ++ l2 = []) as Hn.
  { apply (f_equal length) in E. rewrite !length_app in E.
    apply length_zero_iff_nil. rewrite length_app. lia. }
  apply app_eq_nil in Hn as [-> ->]. rewrite app_nil_r in H1, H2. split; congruence.
Qed.

Lemma calm_refl w : calm w w.
Proof. split; [apply quiet_refl | done]. Qed.

Lemma calm_trans w1 w2 w3 : calm w1 w2 -> calm w2 w3 -> calm w1 w3.
Proof.
  intros [Q1 F1] [Q2 F2]. split; [eapply quiet_trans; eauto|]. intros E.
  destruct (grows_created_eq w1 w2 w3 (grows_of_quiet _ _ Q1) (grows_of_quiet _ _ Q2) E) as [E1 E2].
  rewrite F2, F1; auto.
Qed.

Lemma calm_same w w' :
  created w' = created w -> processed_files w' = processed_files w -> fs w' = fs w -> calm w w'.
Proof. intros Hc Hp Hf. split; [apply quiet_same; assumption | done]. Qed.

Ltac calm_facts := first [ exact calm_refl | exact calm_trans ].

Ltac calm_step :=
  match goal with
  | |- preserves _ (bind _ _) => apply pres_bind; [calm_facts | | intro]
  | |- preserves _ (try_except _ _) => apply pres_try_except; [calm_facts | | intro]
  | |- preserves _ (try_finally _ _) => apply pres_try_finally; [calm_facts | |]
  | |- preserves _ (ret _) => apply pres_ret; calm_facts
  | |- preserves _ (raise _) => apply pres_raise; calm_facts
  | |- preserves _ (lift _) => apply pres_lift; calm_facts
  | |- preserves _ (gets _) => apply pres_gets; calm_facts
  | |- preserves _ (modify _) => apply pres_modify; intro
  | |- preserves _ (match ?x with _ => _ end) => destruct x
  end.

Ltac pres_calm :=
  unfold_prims;
  repeat (first [ calm_step | apply calm_same; reflexivity ]).

Lemma read_file_calm ev p : preserves calm (read_file ev p).
Proof.
  intros w. unfold read_file.
  destruct (e_read_error ev) as [e|]; [|destruct (fs w !! p)]; try apply calm_refl;
    try (destruct e); apply calm_same; reflexivity.
Qed.

Lemma calm_after_created {A} d (k : M A) :
  preserves grows k -> preserves calm (modify (add_created d) ;;; k).
Proof.
  intros Hk w. split; [exact (quiet_after_created d k Hk w)|]. intros E.
  unfold bind, modify in E. specialize (Hk (add_created d w)).
  destruct Hk as [[l Hl] _]. simpl in *. rewrite E in Hl.
  apply (f_equal length) in Hl. rewrite !length_app in Hl. simpl in Hl. lia.
Qed.

Lemma submit_calm ev p pd st cn ci ds : preserves calm (submit ev p pd st cn ci ds).
Proof.
  unfold submit. destruct (negb (post_data_json_ok pd)); [pres_calm|]. apply pres_bind; [exact calm_trans | |].
  { apply pres_modify. intro. apply calm_same; reflexivity. }
  intros _. destruct (e_post ev) as [| | |code js]; [pres_calm..|].
  destruct (code =? 201).
  - apply calm_after_created. pres_grows. all: apply archive_grows.
  - pres_calm.
Qed.

Lemma attempt_calm ev p : preserves calm (attempt ev p).
Proof.
  unfold attempt, get_category_id, http_raise, resolve_title, resolve_status, resolve_date,
    date_str_of.
  unfold_prims.
  repeat (first [ apply read_file_calm | apply submit_calm
                | calm_step | apply calm_same; reflexivity ]).
Qed.

Lemma post_calm ev p : preserves calm (post_to_wordpress ev p).
Proof.
  unfold post_to_wordpress. unfold_prims.
  repeat (first [ apply attempt_calm | calm_step | apply calm_same; reflexivity ]).
Qed.

(** X8. A call of [post_to_wordpress] that gets no 201 from the server
    (so nothing is published) leaves the files on disk and the completed
    set as it found them: only an acknowledged post moves a file. *)
Theorem post_without_201_keeps_files ev p w :
  created (snd (post_to_wordpress ev p w)) = created w ->
  fs (snd (post_to_wordpress ev p w)) = fs w /\
  processed_files (snd (post_to_wordpress ev p w)) = processed_files w.
Proof.
  intros E. destruct (post_calm ev p w) as [[_ Qp] Fs]. split; [exact (Fs E) | exact (Qp E)].
Qed.

Lemma post_without_201_keeps_files_witness :
  created (snd (post_to_wordpress server_error_env watch_path (sample_world "Hello"))) =
    created (sample_world "Hello") /\
  fs (snd (post_to_wordpress server_error_env watch_path (sample_world "Hello"))) =
    fs (sample_world "Hello") /\
  processed_files (snd (post_to_wordpress server_error_env watch_path (sample_world "Hello"))) =
    processed_files (sample_world "Hello").
Proof.
  assert (E : created (snd (post_to_wordpress server_error_env watch_path (sample_world "Hello"))) =
              created (sample_world "Hello")) by (vm_compute; reflexivity).
  exact (conj E (post_without_201_keeps_files server_error_env watch_path (sample_world "Hello") E)).
Defined.

(** ** The archive step when every operation succeeds *)

(** X9. The archive step after a 201, when the folder exists and no move
    fails, and the source, [dest] and the backup path are three distinct
    paths: the step returns normally and marks the path completed; the
    new content is at [dest], the source is gone, a file that was at
    [dest] before is now at the backup path, and every other file is
    untouched. *)
Theorem archive_moves_files ev p w c :
  e_makedirs_error ev = None ->
  (forall s d, e_move_error ev s d = None) ->
  fs w !! p = Some c ->
  archive_dest ev p <> p -> archive_backup ev p <> p -> archive_backup ev p <> archive_dest ev p ->
  fst (archive ev p w) = Ok tt /\ p ∈ processed_files (snd (archive ev p w)) /\
  forall q, fs (snd (archive ev p w)) !! q =
    if decide (q = archive_dest ev p) then Some c
    else if decide (q = p) then None
    else if decide (q = archive_backup ev p) then
      match fs w !! archive_dest ev p with Some old => Some old | None => fs w !! q end
    else fs w !! q.
Proof.
  intros Hd Hm Hp Hdp Hbp Hbd.
  unfold archive. rewrite Hd. fold (archive_dest ev p). fold (archive_backup ev p).
  unfold try_except, bind, file_exists, gets, ret, move. unfold_prims. unfold modify. rewrite !Hm.
  destruct (fs w !! archive_dest ev p) as [old|] eqn:Ed; simpl; rewrite ?Ed; simpl.
  - rewrite lookup_insert_ne by congruence. rewrite lookup_delete_ne by congruence. rewrite Hp.
    simpl. split; [reflexivity|]. split; [set_solver|]. intros q.
    destruct (decide (q = archive_dest ev p)) as [->|Hq1]; [by rewrite lookup_insert_eq|].
    rewrite lookup_insert_ne by congruence.
    destruct (decide (q = p)) as [->|Hq2]; [by rewrite lookup_delete_eq|].
    rewrite lookup_delete_ne by congruence.
    destruct (decide (q = archive_backup ev p)) as [->|Hq3]; [by rewrite lookup_insert_eq|].
    rewrite lookup_insert_ne by congruence. rewrite lookup_delete_ne by congruence. reflexivity.
  - rewrite Hp. simpl. split; [reflexivity|]. split; [set_solver|]. intros q.
    destruct (decide (q = archive_dest ev p)) as [->|Hq1]; [by rewrite lookup_insert_eq|].
    rewrite lookup_insert_ne by congruence.
    destruct (decide (q = p)) as [->|Hq2]; [by rewrite lookup_delete_eq|].
    rewrite lookup_delete_ne by congruence.
    destruct (decide (q = archive_backup ev p)); reflexivity.
Qed.

Lemma archive_moves_files_witness :
  fst (archive ok_env watch_path (world_with crowded_archive)) = Ok tt /\
  watch_path ∈ processed_files (snd (archive ok_env watch_path (world_with crowded_archive))) /\
  fs (snd (archive ok_env watch_path (world_with crowded_archive))) !! "/published/note_1760000000.md"
    = Some "old".
Proof.
  destruct (archive_moves_files ok_env watch_path (world_with crowded_archive) "new")
    as [H1 [H2 H3]]; [reflexivity | intros; reflexivity | reflexivity | vm_compute; congruence
                     | vm_compute; congruence | vm_compute; congruence |].
  split; [exact H1|]. split; [exact H2|]. rewrite H3. vm_compute. reflexivity.
Defined.

(** ** The heading scan on a body that opens with a heading *)

Lemma list_ascii_of_string_append s1 s2 :
  list_ascii_of_string (String.append s1 s2) = list_ascii_of_string s1 ++ list_ascii_of_string s2.
Proof. induction s1 as [|c s1 IH]; simpl; [reflexivity | by rewrite IH]. Qed.

Lemma split_nl_l_line l1 l2 :
  ~ In nl l1 -> split_nl_l (l1 ++ nl :: l2) = l1 :: split_nl_l l2.
Proof.
  induction l1 as [|c l1 IH]; intros Hn; simpl.
  - reflexivity.
  - destruct (Ascii.eqb c nl) eqn:E.
    + apply Ascii.eqb_eq in E. subst. exfalso. apply Hn. left. reflexivity.
    + rewrite IH by (intros H; apply Hn; right; exact H). reflexivity.
Qed.

Lemma strip_prefix_l_app p r : strip_prefix_l p (p ++ r) = Some r.
Proof. induction p as [|c p IH]; simpl; [reflexivity | by rewrite Ascii.eqb_refl]. Qed.

Lemma replace_first_l_head old r : replace_first_l old [] (old ++ r) = r.
Proof. destruct old as [|c old]; [destruct r; reflexivity|]. simpl. by rewrite Ascii.eqb_refl, strip_prefix_l_app. Qed.

(** A body that starts with the line ["# " + t]: the scan finds that
    line, takes [t] stripped as the title, and removes the line with its
    newline. *)
Lemma scan_heading_first t rest :
  ~ In nl (list_ascii_of_string t) ->
  scan_heading (String.append "# " (String.append t (String nl rest))) = (Some (py_strip t), rest).
Proof.
  intros Hn. unfold scan_heading, py_split_nl.
  rewrite !list_ascii_of_string_append. simpl.
  rewrite split_nl_l_line by exact Hn. simpl map. rewrite string_of_list_ascii_of_string.
  assert (Hs : py_startswith (String "#" (String " " t)) "# " = true).
  { unfold py_startswith. simpl. reflexivity. }
  cbn [find]. rewrite Hs.
  assert (Hd : py_drop 2 (String "#" (String " " t)) = t).
  { unfold py_drop. simpl. apply string_of_list_ascii_of_string. }
  rewrite Hd. f_equal.
  unfold py_replace1. rewrite !list_ascii_of_string_append.
  assert (Hl : list_ascii_of_string (String "#" (String " " t)) ++ list_ascii_of_string (String nl "")
               = "#"%char :: " "%char :: list_ascii_of_string t ++ [nl]) by reflexivity.
  rewrite Hl.
  change (list_ascii_of_string "# ") with ["#"; " "]%char.
  change (list_ascii_of_string (String nl rest)) with (nl :: list_ascii_of_string rest).
  change (["#"; " "]%char ++ list_ascii_of_string t ++ nl :: list_ascii_of_string rest)
    with ("#"%char :: " "%char :: list_ascii_of_string t ++ [nl] ++ list_ascii_of_string rest).
  rewrite app_assoc.
  change ("#"%char :: " "%char :: (list_ascii_of_string t ++ [nl]) ++ list_ascii_of_string rest)
    with (("#"%char :: " "%char :: list_ascii_of_string t ++ [nl]) ++ list_ascii_of_string rest).
  rewrite replace_first_l_head. apply string_of_list_ascii_of_string.
Qed.

(** X11. When the metadata gives no truthy title and the body starts
    with a heading line ["# " + t] (then a newline), the title is [t]
    stripped, or the file name's stem when that is empty, and the body
    sent on is the rest after that line; nothing else changes. *)
Theorem heading_becomes_title md v t rest stem w :
  py_get md "title" PNone = Ok v -> truthy v = false ->
  ~ In nl (list_ascii_of_string t) ->
  resolve_title md (String.append "# " (String.append t (String nl rest))) stem w =
  (Ok (if String.eqb (py_strip t) "" then PStr stem else PStr (py_strip t), rest), w).
Proof.
  intros Hv Hf Hn. unfold resolve_title, bind, lift, ret. rewrite Hv. simpl. rewrite Hf.
  rewrite (scan_heading_first t rest Hn). simpl.
  destruct (String.eqb (py_strip t) ""); reflexivity.
Qed.

Lemma heading_becomes_title_witness :
  resolve_title (PDict []) "# Hello  
Body" "note" (sample_world "") = (Ok (PStr "Hello", "Body"), sample_world "").
Proof.
  exact (heading_becomes_title (PDict []) PNone "Hello  " "Body" "note" (sample_world "")
           eq_refl eq_refl ltac:(vm_compute; intuition discriminate)).
Defined.

(** ** [parse_frontmatter] on a well-formed block *)

(** [p in l] for lists of characters. *)
Fixpoint contains_l (p l : list ascii) : bool :=
  match strip_prefix_l p l with
  | Some _ => true
  | None => match l with [] => false | _ :: l' => contains_l p l' end
  end.

(** The first character of [l] exists and is not whitespace. *)
Definition starts_solid (l : list ascii) : bool :=
  match l with c :: _ => negb (is_py_space c) | [] => false end.

Lemma first_some_map {A A' B} (f : A' -> option B) (h : A -> A') l :
  first_some f (map h l) = first_some (fun x => f (h x)) l.
Proof. induction l as [|x l IH]; simpl; [reflexivity | by rewrite IH]. Qed.

Lemma first_some_seq {B} (g : nat -> option B) k v : forall n a,
  (a <= k < a + n)%nat -> (forall i, (a <= i < k)%nat -> g i = None) -> g k = Some v ->
  first_some g (seq a n) = Some v.
Proof.
  induction n as [|n IH]; intros a Hk Hb Hv; [lia|]. simpl.
  destruct (decide (a = k)) as [->|Ha]; [by rewrite Hv|].
  rewrite Hb by lia. apply IH; [lia | intros i Hi; apply Hb; lia | exact Hv].
Qed.

Lemma lstrip_l_solid c r : is_py_space c = false -> lstrip_l (c :: r) = c :: r.
Proof. intros H. unfold lstrip_l. simpl. rewrite H. reflexivity. Qed.

(** A newline followed by a solid character or by nothing: the greedy
    [\s*] tries the run of one newline, then none. *)
Lemma ws_star_nl l :
  (l = [] \/ starts_solid l = true) -> ws_star (nl :: l) = [l; nl :: l].
Proof.
  intros Hl. unfold ws_star, lead_ws.
  assert (E : lstrip_l (nl :: l) = l).
  { destruct Hl as [->|Hs]; [reflexivity|].
    destruct l as [|c r]; [discriminate|]. simpl in Hs. apply negb_true_iff in Hs.
    unfold lstrip_l at 1. simpl. fold (lstrip_l (c :: r)). apply lstrip_l_solid, Hs. }
  rewrite E. simpl length. replace (S (length l) - length l)%nat with 1%nat by lia. reflexivity.
Qed.

Lemma strip_prefix_l_nl_tail p s x :
  ~ In nl p -> strip_prefix_l p s = None -> strip_prefix_l p (s ++ nl :: x) = None.
Proof.
  revert s. induction p as [|c p IH]; intros s Hn Hs; [discriminate|].
  destruct s as [|d s]; simpl in *.
  - destruct (Ascii.eqb c nl) eqn:E; [|reflexivity].
    apply Ascii.eqb_eq in E. subst. exfalso. apply Hn. left. reflexivity.
  - destruct (Ascii.eqb c d); [|reflexivity]. apply IH; [tauto | exact Hs].
Qed.

Lemma contains_l_cons p c l :
  contains_l p (c :: l) = match strip_prefix_l p (c :: l) with Some _ => true | None => contains_l p l end.
Proof. reflexivity. Qed.

Lemma strip_prefix_l_cons c p d l :
  strip_prefix_l (c :: p) (d :: l) = if Ascii.eqb c d then strip_prefix_l p l else None.
Proof. reflexivity. Qed.

(** No ["\n---"] starts inside [y]: not even one running into the
    newline that follows [y]. *)
Lemma no_close_inside y x i :
  contains_l (nl :: dashes) y = false -> (i < length y)%nat ->
  strip_prefix_l (nl :: dashes) (skipn i y ++ nl :: x) = None.
Proof.
  revert i. induction y as [|c y IH]; intros i Hc Hi; simpl in Hi; [lia|].
  rewrite contains_l_cons, strip_prefix_l_cons in Hc.
  destruct i as [|i].
  - rewrite skipn_O. rewrite <- app_comm_cons, strip_prefix_l_cons.
    destruct (Ascii.eqb nl c); [|reflexivity].
    destruct (strip_prefix_l dashes y) eqn:D; [discriminate|].
    apply strip_prefix_l_nl_tail; [simpl; intuition discriminate | exact D].
  - rewrite skipn_cons. apply IH; [|lia].
    destruct (Ascii.eqb nl c); [destruct (strip_prefix_l dashes y); [discriminate|] |]; exact Hc.
Qed.

Lemma strip_prefix_l_nil l : strip_prefix_l [] l = Some l.
Proof. reflexivity. Qed.

Lemma fm_match_l_block y b :
  starts_solid y = true -> contains_l (nl :: dashes) y = false ->
  (b = [] \/ starts_solid b = true) ->
  fm_match_l (dashes ++ nl :: y ++ nl :: dashes ++ nl :: b) = Some (y, b).
Proof.
  intros Hy Hc Hb. unfold fm_match_l. rewrite strip_prefix_l_app.
  destruct y as [|c y']; [discriminate|].
  assert (Hcn : Ascii.eqb nl c = false).
  { simpl in Hy. apply negb_true_iff in Hy. destruct (Ascii.eqb nl c) eqn:E; [|reflexivity].
    apply Ascii.eqb_eq in E. subst. discriminate. }
  rewrite ws_star_nl by (right; exact Hy). cbn [first_some].
  rewrite <- app_comm_cons, strip_prefix_l_cons, Hcn. cbv beta iota.
  rewrite strip_prefix_l_cons, Ascii.eqb_refl, strip_prefix_l_nil. cbv beta iota.
  set (y := c :: y') in *.
  change (c :: y' ++ nl :: dashes ++ nl :: b) with (y ++ nl :: dashes ++ nl :: b).
  unfold lazy_splits. rewrite first_some_map.
  rewrite (first_some_seq _ (length y) (y, b)); [reflexivity | unfold y; simpl; rewrite length_app; simpl; lia | |].
  - intros i [_ Hi]. rewrite skipn_app. replace (i - length y)%nat with 0%nat by lia.
    rewrite skipn_O. rewrite (no_close_inside y _ i Hc Hi). reflexivity.
  - rewrite skipn_app, skipn_all, Nat.sub_diag, skipn_O, firstn_app, firstn_all, Nat.sub_diag.
    rewrite firstn_O, app_nil_r. simpl app.
    change (nl :: "-"%char :: "-"%char :: "-"%char :: nl :: b) with ((nl :: dashes) ++ nl :: b).
    rewrite strip_prefix_l_app. cbv beta iota.
    rewrite ws_star_nl by exact Hb. cbn [first_some].
    destruct Hb as [->|Hs]; [reflexivity|].
    destruct b as [|d b']; [discriminate|]. simpl in Hs. apply negb_true_iff in Hs.
    assert (Hdn : Ascii.eqb nl d = false).
    { destruct (Ascii.eqb nl d) eqn:E; [|reflexivity]. apply Ascii.eqb_eq in E. subst. discriminate. }
    rewrite strip_prefix_l_cons, Hdn. cbv beta iota.
    rewrite strip_prefix_l_cons, Ascii.eqb_refl, strip_prefix_l_nil. reflexivity.
Qed.

(** X12. A note [---], newline, a YAML block [y], newline, [---],
    newline, body [b], where [y] starts with a non-blank character and
    holds no newline followed by [---], and [b] is empty or starts with
    a non-blank character: the pattern captures exactly [y] and [b], and
    when [yaml.safe_load] accepts [y] the metadata is its value (or [{}]
    when that is falsy) and the body is [b]. *)
Theorem frontmatter_block_parsed (load : string -> res pyval) y b :
  starts_solid (list_ascii_of_string y) = true ->
  contains_l (nl :: dashes) (list_ascii_of_string y) = false ->
  (b = EmptyString \/ starts_solid (list_ascii_of_string b) = true) ->
  let content := String.append "---" (String nl (String.append y
                   (String nl (String.append "---" (String nl b))))) in
  fm_match content = Some (y, b) /\
  (forall m, load y = Ok m ->
     parse_frontmatter load content = Ok (if truthy m then m else PDict [], b)).
Proof.
  intros Hy Hc Hb content.
  assert (F : fm_match content = Some (y, b)).
  { unfold fm_match.
    assert (L : list_ascii_of_string content =
                dashes ++ nl :: list_ascii_of_string y ++ nl :: dashes ++ nl :: list_ascii_of_string b).
    { unfold content. repeat (rewrite list_ascii_of_string_append; simpl). reflexivity. }
    rewrite L.
    rewrite fm_match_l_block; [|exact Hy | exact Hc |].
    - by rewrite !string_of_list_ascii_of_string.
    - destruct Hb as [->|Hb]; [left; reflexivity | right; exact Hb]. }
  split; [exact F|]. intros m Hm. unfold parse_frontmatter. rewrite F, Hm. reflexivity.
Qed.

Lemma frontmatter_block_parsed_witness :
  parse_frontmatter (fun _ => Ok (PDict [("title", PStr "Hi")])) "---
title: Hi
---
Body" = Ok (PDict [("title", PStr "Hi")], "Body").
Proof.
  exact (proj2 (frontmatter_block_parsed (fun _ => Ok (PDict [("title", PStr "Hi")]))
                  "title: Hi" "Body" eq_refl eq_refl (or_intror eq_refl))
           (PDict [("title", PStr "Hi")]) eq_refl).
Defined.

(** ** A malformed category entry ends the lookup *)

(** An entry the loop passes over: its name is a string that does not
    match. *)
Definition passes_over (name_lower : string) (c : pyval) : Prop :=
  exists n, py_getitem c "name" = Ok (PStr n) /\ py_lower n <> name_lower.

Lemma find_category_malformed name_lower pre bad post :
  Forall (passes_over name_lower) pre ->
  (forall n, py_getitem bad "name" <> Ok (PStr n)) ->
  exists e, find_category name_lower (pre ++ bad :: post) = Raise e /\ is_request_exc e = false.
Proof.
  induction 1 as [|c pre [n [Hn Hne]] _ IH]; intros Hbad.
  - simpl. destruct (py_getitem bad "name") as [v|e] eqn:E.
    + destruct v; simpl; try (eexists; split; [reflexivity | reflexivity]).
      exfalso. exact (Hbad s eq_refl).
    + exists e. split; [reflexivity|].
      destruct bad; simpl in E; try (destruct (find _ _) as [[? ?]|]); inversion E; reflexivity.
  - simpl. rewrite Hn. simpl. apply String.eqb_neq in Hne. rewrite Hne. exact (IH Hbad).
Qed.

(** X13. In a 200 answer to the category request, an entry without a
    string ["name"] (a missing key, a non-string name, or not a dict)
    that comes before any match makes [get_category_id] log the generic
    error and return no category, even when a later entry matches. *)
Theorem malformed_category_entry_stops_lookup ev s pre bad post w :
  s <> "" ->
  e_categories ev = HResp 200 (Ok (PList (pre ++ bad :: post))) ->
  Forall (passes_over (py_lower s)) pre ->
  (forall n, py_getitem bad "name" <> Ok (PStr n)) ->
  get_category_id ev (PStr s) w = (Ok None, add_log (ERROR, MCatError) (add_call GetCategories w)).
Proof.
  intros Hs Hc Hpre Hbad.
  destruct (find_category_malformed (py_lower s) pre bad post Hpre Hbad) as (e & He & Hr).
  unfold get_category_id.
  assert (truthy (PStr s) = true) as Ht by (simpl; destruct s; [congruence | reflexivity]).
  rewrite Ht. simpl negb. cbv iota. rewrite Hc.
  unfold try_except, bind, modify, lift, http_raise. simpl.
  rewrite He. simpl. rewrite Hr. reflexivity.
Qed.

Lemma malformed_category_entry_stops_lookup_witness :
  get_category_id nameless_first_env (PStr "tech") (sample_world "") =
  (Ok None, add_log (ERROR, MCatError) (add_call GetCategories (sample_world ""))).
Proof.
  exact (malformed_category_entry_stops_lookup nameless_first_env "tech" []
           (PDict [("id", PInt 1)]) [PDict [("id", PInt 3); ("name", PStr "Tech")]]
           (sample_world "") ltac:(discriminate) eq_refl (List.Forall_nil _)
           ltac:(intros n; vm_compute; discriminate)).
Defined.

(** ** When [validate_config] accepts a configuration *)

Lemma folder_errors_nil h m nd a o :
  folder_errors h m nd a o = [] <-> exists f, opt_set o = Some f /\ h_mkdir_is_dir h f = Ok true.
Proof.
  unfold folder_errors. split.
  - intros H. destruct (opt_set o) as [f|]; [|discriminate H].
    destruct (h_mkdir_is_dir h f) as [[]|] eqn:E; try discriminate H. eauto.
  - intros (f & -> & ->). reflexivity.
Qed.

(** X14. [validate_config] returns no errors exactly when the URL is set,
    starts with [http://] or [https://] and parses to a non-empty network
    location, the user and the password are set, both folders are set
    and can be created as directories, and they resolve, without error,
    to two different paths. *)
Theorem validate_config_accepts h c :
  validate_config h c = Ok [] <->
  (exists u n, opt_set (c_wp_url c) = Some u /\
               (py_startswith u "http://" || py_startswith u "https://") = true /\
               h_netloc h u = Ok n /\ n <> "") /\
  opt_set (c_wp_user c) <> None /\ opt_set (c_wp_password c) <> None /\
  (exists wf pf rw rp, opt_set (c_watch c) = Some wf /\ opt_set (c_published c) = Some pf /\
     h_mkdir_is_dir h wf = Ok true /\ h_mkdir_is_dir h pf = Ok true /\
     h_resolve h wf = Ok rw /\ h_resolve h pf = Ok rp /\ rw <> rp).
Proof.
  unfold validate_config.
  set (ue := match opt_set (c_wp_url c) with
             | None => [WpUrlMissing]
             | Some u =>
                 if py_startswith u "http://" || py_startswith u "https://" then
                   match h_netloc h u with
                   | Ok netloc => if String.eqb netloc "" then [WpUrlFormat] else []
                   | Raise _ => [WpUrlFormat]
                   end
                 else [WpUrlScheme]
             end).
  assert (Hue : ue = [] <-> exists u n, opt_set (c_wp_url c) = Some u /\
               (py_startswith u "http://" || py_startswith u "https://") = true /\
               h_netloc h u = Ok n /\ n <> "").
  { unfold ue. split.
    - intros H. destruct (opt_set (c_wp_url c)) as [u|]; [|discriminate H].
      destruct (_ || _) eqn:Hs; [|discriminate H].
      destruct (h_netloc h u) as [n|] eqn:Hn; [|discriminate H].
      destruct (String.eqb n "") eqn:En; [discriminate H|]. apply String.eqb_neq in En. eauto 6.
    - intros (u & n & -> & -> & -> & Hn). apply String.eqb_neq in Hn. by rewrite Hn. }
  set (us := match opt_set (c_wp_user c) with None => [WpUserMissing] | Some _ => [] end).
  assert (Hus : us = [] <-> opt_set (c_wp_user c) <> None).
  { unfold us. destruct (opt_set (c_wp_user c)); split; congruence. }
  set (pw := match opt_set (c_wp_password c) with None => [WpPasswordMissing] | Some _ => [] end).
  assert (Hpw : pw = [] <-> opt_set (c_wp_password c) <> None).
  { unfold pw. destruct (opt_set (c_wp_password c)); split; congruence. }
  pose proof (folder_errors_nil h WatchMissing WatchNotDir WatchAccess (c_watch c)) as Hw.
  pose proof (folder_errors_nil h PublishedMissing PublishedNotDir PublishedAccess (c_published c)) as Hp.
  set (fw := folder_errors h WatchMissing WatchNotDir WatchAccess (c_watch c)) in *.
  set (fp := folder_errors h PublishedMissing PublishedNotDir PublishedAccess (c_published c)) in *.
  assert (Hall : forall extra, (ue ++ us ++ pw ++ fw ++ fp) ++ extra = [] <->
                 ue = [] /\ us = [] /\ pw = [] /\ fw = [] /\ fp = [] /\ extra = []).
  { intros extra. split.
    - intros H. repeat match goal with H : _ ++ _ = [] |- _ => apply app_eq_nil in H as [? ?] end.
      tauto.
    - intros (E1 & E2 & E3 & E4 & E5 & E6). rewrite E1, E2, E3, E4, E5, E6. reflexivity. }
  destruct (opt_set (c_watch c)) as [wf|] eqn:Ew; destruct (opt_set (c_published c)) as [pf|] eqn:Ep.
  - destruct (h_resolve h wf) as [rw|e] eqn:Rw; destruct (h_resolve h pf) as [rp|e'] eqn:Rp;
      try (split; [discriminate | intros (_ & _ & _ & (? & ? & ? & ? & [=] & [=] & _ & _ & E1 & E2 & _)); congruence]).
    split.
    + intros [= H]. apply Hall in H as (H1 & H2 & H3 & H4 & H5 & H6).
      apply Hw in H4 as (f1 & [= <-] & Hf1). apply Hp in H5 as (f2 & [= <-] & Hf2).
      split; [tauto|]. split; [tauto|]. split; [tauto|].
      exists wf, pf, rw, rp. repeat split; try assumption.
      intros ->. rewrite String.eqb_refl in H6. discriminate.
    + intros (H1 & H2 & H3 & (wf' & pf' & rw' & rp' & E1 & E2 & Hm1 & Hm2 & R1 & R2 & Hne)).
      injection E1 as <-. injection E2 as <-.
      rewrite Rw in R1. injection R1 as <-. rewrite Rp in R2. injection R2 as <-.
      f_equal. apply Hall. apply String.eqb_neq in Hne. rewrite Hne.
      repeat split; [tauto | tauto | tauto | apply Hw; eauto | apply Hp; eauto].
  - split; [|intros (_ & _ & _ & (? & ? & ? & ? & _ & E & _)); discriminate].
    intros [= H]. rewrite <- (app_nil_r (ue ++ us ++ pw ++ fw ++ fp)) in H. apply Hall in H as (_ & _ & _ & _ & H5 & _).
    apply Hp in H5 as (? & E & _). discriminate.
  - split; [|intros (_ & _ & _ & (? & ? & ? & ? & E & _)); discriminate].
    intros [= H]. rewrite <- (app_nil_r (ue ++ us ++ pw ++ fw ++ fp)) in H. apply Hall in H as (_ & _ & _ & H4 & _).
    apply Hw in H4 as (? & E & _). discriminate.
  - split; [|intros (_ & _ & _ & (? & ? & ? & ? & E & _)); discriminate].
    intros [= H]. rewrite <- (app_nil_r (ue ++ us ++ pw ++ fw ++ fp)) in H. apply Hall in H as (_ & _ & _ & H4 & _).
    apply Hw in H4 as (? & E & _). discriminate.
Qed.

(** ** Notes that are never sent *)

Lemma processing_restored p (s : gset string) : p ∉ s -> ((s ∪ {[p]}) ∖ {[p]}) ∖ {[p]} = s.
Proof. intros Hp. apply leibniz_equiv, set_equiv. intros q. set_solver. Qed.

(** X15. An admitted note that cannot be read, or whose content is blank
    after [strip()], is never sent: [post_to_wordpress] returns normally
    and the only change to the world is two log lines, the [INFO] line
    for the new file and then the error for the failed read (by its
    kind) or the [WARNING] for the blank file; the path is out of flight
    again and no request is made. *)
Theorem unreadable_or_blank_never_sent ev p w :
  is_tracked p w = false ->
  (forall e, e_read_error ev = Some e ->
     post_to_wordpress ev p w =
     (Ok tt, add_log (ERROR, match e with
                             | FileNotFoundError => MFileNotFound
                             | PermissionError => MReadPermission
                             | _ => MReadError
                             end) (add_log (INFO, MNewFile) w))) /\
  (e_read_error ev = None -> fs w !! p = None ->
     post_to_wordpress ev p w = (Ok tt, add_log (ERROR, MFileNotFound) (add_log (INFO, MNewFile) w))) /\
  (forall c, e_read_error ev = None -> fs w !! p = Some c -> String.eqb (py_strip c) "" = true ->
     post_to_wordpress ev p w = (Ok tt, add_log (WARNING, MEmptyFile) (add_log (INFO, MNewFile) w))).
Proof.
  intros Ht. pose proof Ht as Ht'. apply is_tracked_false in Ht' as [_ Hpr].
  pose proof (processing_restored p (processing w) Hpr) as Hs.
  unfold post_to_wordpress, bind, gets. rewrite Ht.
  unfold add_processing, log, modify, try_finally, try_except, discard_processing, attempt, bind.
  unfold read_file. simpl.
  split; [|split].
  - intros e He. rewrite He.
    destruct e; unfold log, modify, bind, ret, discard_processing; simpl; rewrite Hs; destruct w; reflexivity.
  - intros He Hf. rewrite He, Hf. unfold log, modify, bind, ret, discard_processing. simpl.
    rewrite Hs. destruct w; reflexivity.
  - intros c He Hf Hc. rewrite He, Hf. simpl. rewrite Hc. unfold log, modify, bind, ret, discard_processing.
    simpl. rewrite Hs. destruct w; reflexivity.
Qed.

Lemma unreadable_or_blank_never_sent_witness :
  post_to_wordpress ok_env watch_path (sample_world "  ") =
  (Ok tt, add_log (WARNING, MEmptyFile) (add_log (INFO, MNewFile) (sample_world "  "))).
Proof.
  exact (proj2 (proj2 (unreadable_or_blank_never_sent ok_env watch_path (sample_world "  ")
                         ltac:(vm_compute; reflexivity)))
           "  " eq_refl eq_refl eq_refl).
Defined.

(** ** What one file event can do *)

(** [w'] keeps the in-flight set of [w], only grows its acknowledged
    posts and completed set, and adds at most one category request and
    one post request. *)
Definition event_effect (w w' : world) : Prop :=
  processing w' = processing w /\ grows w w' /\ within 1 1 w w'.

Lemma event_effect_same w w' :
  processing w' = processing w -> created w' = created w ->
  processed_files w' = processed_files w -> http_calls w' = http_calls w -> event_effect w w'.
Proof.
  intros Hp Hc Hd Hh. split; [exact Hp|]. split; [apply grows_same; [exact Hc | rewrite Hd; set_solver] |].
  apply within_same, Hh.
Qed.

Lemma event_effect_post ev p w : event_effect w (snd (post_to_wordpress ev p w)).
Proof. split; [apply post_processing|]. split; [apply post_grows | apply post_within]. Qed.

Lemma event_effect_after_wait polls n (k : bool -> M unit) w :
  (forall b w1, event_effect w1 (snd (k b w1))) ->
  event_effect w (snd (bind (wait_for_file_ready polls n) k w)).
Proof.
  intros Hk. unfold bind. rewrite wfr_pair. cbv beta iota.
  pose proof (wait_for_file_ready_frame polls n w) as (F1 & F2 & _ & F4 & F5 & _).
  set (w1 := snd (wait_for_file_ready polls n w)) in *.
  destruct (Hk (found (first_ready polls n)) w1) as (P & G & Wt).
  split; [rewrite P; exact F1|]. split.
  - eapply grows_trans; [|exact G]. apply grows_same; [exact F5 | rewrite F2; set_solver].
  - eapply (within_trans' 0 0 1 1); [lia | lia | apply within_same, F4 | exact Wt].
Qed.

(** X16. Whatever the event, [on_created] and [on_modified] leave the
    in-flight set as they found it, never shrink the server's
    acknowledged posts or the completed set (so a completed path stays
    completed and is ignored by both handlers from then on), and make at
    most one category request and one post request. *)
Theorem handlers_event_effect ev e w :
  event_effect w (snd (on_created ev e w)) /\ event_effect w (snd (on_modified ev e w)).
Proof.
  split.
  - unfold on_created. destruct (is_directory e); [apply event_effect_same; reflexivity|].
    destruct (py_endswith (src_path e) ".md"); [|apply event_effect_same; reflexivity].
    unfold bind at 1, gets. cbv beta iota. destruct (is_tracked (src_path e) w).
    + apply event_effect_same; reflexivity.
    + apply event_effect_after_wait. intros [] w1; [apply event_effect_post|].
      apply event_effect_same; reflexivity.
  - unfold on_modified. destruct (is_directory e); [apply event_effect_same; reflexivity|].
    destruct (py_endswith (src_path e) ".md"); [|apply event_effect_same; reflexivity].
    destruct (_ && _); [apply event_effect_same; reflexivity|].
    unfold bind at 1, gets. cbv beta iota.
    destruct (bool_decide (src_path e ∈ processed_files w)); [apply event_effect_same; reflexivity|].
    unfold bind at 1. cbv beta iota.
    destruct (bool_decide (src_path e ∈ processing w)); simpl negb; cbv iota.
    + apply event_effect_same; reflexivity.
    + apply event_effect_after_wait. intros [] w1; [apply event_effect_post|].
      apply event_effect_same; reflexivity.
Qed.

(** ** [Path.stem] and [Path.suffix] *)

Lemma string_of_list_ascii_app l1 l2 :
  string_of_list_ascii (l1 ++ l2) = String.append (string_of_list_ascii l1) (string_of_list_ascii l2).
Proof. induction l1 as [|c l1 IH]; simpl; [reflexivity | by rewrite IH]. Qed.

Lemma string_append_empty s : String.append s "" = s.
Proof. induction s as [|c s IH]; [reflexivity|]. change (String c (String.append s "") = String c s). by rewrite IH. Qed.

(** X17. For every path, [stem] followed by [suffix] is the last
    component [name]: the backup name [<stem>_<time><suffix>] keeps the
    archived file's name around the inserted [_<time>]. *)
Theorem stem_suffix_name p :
  String.append (path_stem p) (path_suffix p) = path_name p.
Proof.
  unfold path_stem, path_suffix. destruct (suffix_index (path_name p)) as [i|].
  - unfold py_drop. rewrite <- string_of_list_ascii_app, firstn_skipn.
    apply string_of_list_ascii_of_string.
  - apply string_append_empty.
Qed.

(** ** Which errors [validate_config] reports *)

Lemma validate_config_errors h c errs :
  validate_config h c = Ok errs ->
  exists extra, errs = setting_errors h c ++ extra /\ (extra = [] \/ extra = [SameFolder]).
Proof.
  unfold validate_config. fold (url_errors h c).
  change (url_errors h c ++ _ ++ _ ++ _ ++ _) with (setting_errors h c).
  destruct (opt_set (c_watch c)), (opt_set (c_published c));
    try (intros [= <-]; exists []; rewrite app_nil_r; auto).
  destruct (h_resolve h s), (h_resolve h s0); try discriminate.
  intros [= <-]. eexists. split; [reflexivity|]. destruct (String.eqb _ _); auto.
Qed.

Lemma in_folder_errors x h m nd a o :
  In x (folder_errors h m nd a o) -> x = m \/ x = nd \/ x = a.
Proof.
  unfold folder_errors. destruct (opt_set o); [destruct (h_mkdir_is_dir h s) as [[]|]|];
    simpl; intuition.
Qed.

Lemma in_missing_folder h m nd a o :
  m <> nd -> m <> a -> (In m (folder_errors h m nd a o) <-> opt_set o = None).
Proof.
  intros H1 H2. unfold folder_errors. destruct (opt_set o); [|simpl; tauto].
  destruct (h_mkdir_is_dir h s) as [[]|]; simpl; split; intuition congruence.
Qed.

Lemma in_url_errors x h c : In x (url_errors h c) -> x = WpUrlMissing \/ x = WpUrlScheme \/ x = WpUrlFormat.
Proof.
  unfold url_errors. destruct (opt_set (c_wp_url c)); [|simpl; intuition].
  destruct (_ || _); [|simpl; intuition]. destruct (h_netloc h s); [destruct (String.eqb _ _)|];
    simpl; intuition.
Qed.

Lemma in_url_missing h c : In WpUrlMissing (url_errors h c) <-> opt_set (c_wp_url c) = None.
Proof.
  unfold url_errors. destruct (opt_set (c_wp_url c)); [|simpl; tauto].
  destruct (_ || _); [destruct (h_netloc h s); [destruct (String.eqb _ _)|] |];
    simpl; split; intuition congruence.
Qed.

(** X18. Whenever [validate_config] returns its list of errors, each of
    the five settings is reported missing exactly when it is unset or
    empty, whatever the other settings are. *)
Theorem validate_config_reports_missing h c errs :
  validate_config h c = Ok errs ->
  (In WpUrlMissing errs <-> opt_set (c_wp_url c) = None) /\
  (In WpUserMissing errs <-> opt_set (c_wp_user c) = None) /\
  (In WpPasswordMissing errs <-> opt_set (c_wp_password c) = None) /\
  (In WatchMissing errs <-> opt_set (c_watch c) = None) /\
  (In PublishedMissing errs <-> opt_set (c_published c) = None).
Proof.
  intros H. destruct (validate_config_errors h c errs H) as (extra & -> & Hx).
  assert (Xe : forall x, In x extra -> x = SameFolder) by (destruct Hx as [->| ->]; simpl; intuition).
  unfold setting_errors. rewrite <- !app_assoc.
  repeat rewrite in_app_iff.
  repeat split; intros Hin;
    repeat match goal with Hd : _ \/ _ |- _ => destruct Hd as [Hd|Hd] end;
    repeat match goal with
           | Hd : In WpUrlMissing (url_errors _ _) |- _ => apply in_url_missing in Hd
           | Hd : In ?m (folder_errors _ ?m _ _ _) |- _ =>
               apply in_missing_folder in Hd; [|discriminate|discriminate]
           | Hd : In _ (url_errors _ _) |- _ => apply in_url_errors in Hd
           | Hd : In _ (match ?o with _ => _ end) |- _ => destruct o eqn:?; simpl in Hd
           | Hd : In _ (folder_errors _ _ _ _ _) |- _ => apply in_folder_errors in Hd
           | Hd : In _ extra |- _ => apply Xe in Hd
           end;
    try (intuition congruence).
  all: try (left; apply in_url_missing; assumption).
  all: try (right; left; rewrite Hin; simpl; tauto).
  all: try (right; right; left; rewrite Hin; simpl; tauto).
  all: try (right; right; right; left; apply in_missing_folder; [discriminate | discriminate | exact Hin]).
  all: try (right; right; right; right; left; apply in_missing_folder; [discriminate | discriminate | exact Hin]).
Qed.

(** Witness of X18 on [partial_config]: it reports exactly the empty user,
    the unset password and the unset published folder. *)
Lemma validate_config_reports_missing_witness :
  validate_config sample_host partial_config
    = Ok [WpUserMissing; WpPasswordMissing; PublishedMissing] /\
  ((In WpUrlMissing [WpUserMissing; WpPasswordMissing; PublishedMissing]
      <-> opt_set (c_wp_url partial_config) = None) /\
   (In WpUserMissing [WpUserMissing; WpPasswordMissing; PublishedMissing]
      <-> opt_set (c_wp_user partial_config) = None) /\
   (In WpPasswordMissing [WpUserMissing; WpPasswordMissing; PublishedMissing]
      <-> opt_set (c_wp_password partial_config) = None) /\
   (In WatchMissing [WpUserMissing; WpPasswordMissing; PublishedMissing]
      <-> opt_set (c_watch partial_config) = None) /\
   (In PublishedMissing [WpUserMissing; WpPasswordMissing; PublishedMissing]
      <-> opt_set (c_published partial_config) = None)).
Proof.
  assert (E : validate_config sample_host partial_config
                = Ok [WpUserMissing; WpPasswordMissing; PublishedMissing]) by reflexivity.
  exact (conj E (validate_config_reports_missing sample_host partial_config _ E)).
Defined.
